(** * Gestor de Libros: the reducer, the scan resolver and the scanner filter

    A shallow embedding of the state engine of the classroom book tracker
    (the one-file React application) and the proofs of its specified
    properties.

    Conventions of the embedding:
    - a JavaScript string is the [string] of the bytes of its UTF-8
      encoding; identifiers, isbn codes and names are strings and are
      compared with [===], which is equality here;
    - arrays are lists; [filter], [map], [find], [findIndex], [some] and
      [includes] are the list functions of the same meaning;
    - a nullable identifier ([null] or a string) is [option string];
    - [Date.now()] is an integer number of milliseconds, a [Z];
    - [uid()] reads the random generator and the clock: the value it returns
      in a call of the reducer is an argument of the reducer;
    - the callbacks of the components ([dispatch], [setMsg], [onDetect],
      [playBeep]) are effects: a handler returns the list of the effects it
      performs, in order;
    - a handler and the [dispatch] it calls belong to a render and read the
      snapshot of that render. For the handlers of buttons and dialogs that
      render is the current one. The scanner registers its decode callback
      once, when it mounts, so the [onDetect] it calls, and the [dispatch]
      inside, stay those of the render that mounted it. *)

From stdpp Require Import base list strings.
From Stdlib Require Import ZArith Ascii.

(** ** Data model (the typedefs Curso, Clase, Alumno and the snapshot) *)

Record BookRef := { isbn : string; title : string }.

Module Curso.
Record t := mk { id : string; nombre : string; libros : list BookRef }.
End Curso.

Module Clase.
Record t := mk { id : string; nombre : string; cursoId : string }.
End Clase.

Module Alumno.
Record t :=
  mk { id : string; nombre : string; claseId : string;
       librosEntregados : list string }.
End Alumno.

Module Seleccion.
Record t :=
  mk { cursoId : option string; claseId : option string;
       alumnoId : option string }.
End Seleccion.

Record State := {
  cursos : list Curso.t;
  clases : list Clase.t;
  alumnos : list Alumno.t;
  seleccion : Seleccion.t
}.

(** The snapshot that [loadState] and RESET_STATE build. *)
Definition estado_vacio : State :=
  {| cursos := []; clases := []; alumnos := [];
     seleccion := Seleccion.mk None None None |}.

(** ** String helpers *)

(** A JavaScript string is held as the bytes of its UTF-8 encoding, the
    encoding of the literals of this file (a text with an unpaired
    surrogate has no such encoding and is not covered). The white space that
    [String.prototype.trim] removes is the WhiteSpace and LineTerminator
    code points of the language: U+0009 to U+000D, U+0020, U+00A0, U+1680,
    U+2000 to U+200A, U+2028, U+2029, U+202F, U+205F, U+3000 and U+FEFF.
    [es_blanco] recognises those of one byte, [es_blanco2] the one of two
    bytes and [es_blanco3] those of three. *)
Definition es_blanco (a : ascii) : bool :=
  let n := nat_of_ascii a in
  (Nat.leb 9 n && Nat.leb n 13) || Nat.eqb n 32.

Definition es_blanco2 (a b : ascii) : bool :=
  Nat.eqb (nat_of_ascii a) 194 && Nat.eqb (nat_of_ascii b) 160.

Definition es_blanco3 (a b c : ascii) : bool :=
  let x := nat_of_ascii a in
  let y := nat_of_ascii b in
  let z := nat_of_ascii c in
  (Nat.eqb x 225 && Nat.eqb y 154 && Nat.eqb z 128)
  || (Nat.eqb x 226 && Nat.eqb y 128
      && ((Nat.leb 128 z && Nat.leb z 138)
          || Nat.eqb z 168 || Nat.eqb z 169 || Nat.eqb z 175))
  || (Nat.eqb x 226 && Nat.eqb y 129 && Nat.eqb z 159)
  || (Nat.eqb x 227 && Nat.eqb y 128 && Nat.eqb z 128)
  || (Nat.eqb x 239 && Nat.eqb y 187 && Nat.eqb z 191).

(** The bytes left once the white space at the front is removed. With
    [invertida] the list is a text read from its end, so the bytes of a
    code point come last first. *)
Fixpoint quita_blancos (invertida : bool) (l : list ascii) : list ascii :=
  match l with
  | [] => []
  | a :: l1 =>
      if es_blanco a then quita_blancos invertida l1
      else
        match l1 with
        | [] => l
        | b :: l2 =>
            if (if invertida then es_blanco2 b a else es_blanco2 a b)
            then quita_blancos invertida l2
            else
              match l2 with
              | [] => l
              | c :: l3 =>
                  if (if invertida then es_blanco3 c b a
                      else es_blanco3 a b c)
                  then quita_blancos invertida l3
                  else l
              end
        end
  end.

(** The text of the given bytes. *)
Definition de_bytes (l : list nat) : string :=
  String.string_of_list_ascii (ascii_of_nat <$> l).

Definition trim (s : string) : string :=
  String.string_of_list_ascii
    (rev (quita_blancos true
       (rev (quita_blancos false (String.list_ascii_of_string s))))).

(** ** Actions *)

(** One constructor per [case] of the reducer; [OTRA] is any other
    [action.type], which falls to [default]. The optional [title] of
    ADD_LIBRO_A_CURSO is [None] when the field is [undefined]. *)
Inductive Action :=
| ADD_CURSO (payload : string)
| DEL_CURSO (payload : string)
| ADD_LIBRO_A_CURSO (cursoId isbn : string) (title : option string)
| DEL_LIBRO_DE_CURSO (cursoId isbn : string)
| REORDER_LIBROS (cursoId isbn direction : string)
| ADD_CLASE (cursoId nombre : string)
| DEL_CLASE (payload : string)
| ADD_ALUMNO (claseId nombre : string)
| DEL_ALUMNO (payload : string)
| SELECT_CURSO (payload : option string)
| SELECT_CLASE (payload : option string)
| SELECT_ALUMNO (payload : option string)
| MARCAR_LIBRO (alumnoId barcode : string)
| DESMARCAR_LIBRO (alumnoId barcode : string)
| IMPORT_STATE (payload : State)
| RESET_STATE
| OTRA (tipo : string).

(** ** The reducer, case by case *)

(** [title || `Libro ${isbn}`]: an absent or empty title is falsy. *)
Definition titulo_o_defecto (title : option string) (isbn0 : string) : string :=
  match title with
  | Some t => if decide (t = "") then "Libro " +:+ isbn0 else t
  | None => "Libro " +:+ isbn0
  end.

(** The callback of [cursos.map] in ADD_LIBRO_A_CURSO. *)
Definition add_libro (cursoId isbn0 : string) (title0 : option string)
    (c : Curso.t) : Curso.t :=
  if decide (Curso.id c ≠ cursoId) then c
  else if decide (Exists (λ l, isbn l = isbn0) (Curso.libros c)) then c
  else Curso.mk (Curso.id c) (Curso.nombre c)
         (Curso.libros c ++ [ {| isbn := isbn0; title := titulo_o_defecto title0 isbn0 |} ]).

(** The callback of [cursos.map] in DEL_LIBRO_DE_CURSO. *)
Definition del_libro (cursoId isbn0 : string) (c : Curso.t) : Curso.t :=
  if decide (Curso.id c ≠ cursoId) then c
  else Curso.mk (Curso.id c) (Curso.nombre c)
         (filter (λ l, isbn l ≠ isbn0) (Curso.libros c)).

(** [libros.findIndex(l => l.isbn === isbn)]; [None] is the result -1. *)
Definition findIndex_isbn (isbn0 : string) (libros : list BookRef) : option nat :=
  fst <$> list_find (λ l, isbn l = isbn0) libros.

(** The destructuring swap [[a[i], a[j]] = [a[j], a[i]]]: the right-hand
    side is read first, then the cell [i] and the cell [j] are written.
    The reducer calls it with both indexes inside the array. *)
Definition intercambia {A} (i j : nat) (l : list A) : list A :=
  match l !! j, l !! i with
  | Some aj, Some ai => <[j:=ai]> (<[i:=aj]> l)
  | _, _ => l
  end.

(** The body of REORDER_LIBROS on the copied book list, once the index is
    known. *)
Definition reordena (direction : string) (index : nat)
    (libros : list BookRef) : list BookRef :=
  if decide (direction = "up" ∧ 0 < index) then
    intercambia (index - 1) index libros
  else if decide (direction = "down" ∧ index < length libros - 1) then
    intercambia (index + 1) index libros
  else libros.

(** The callback of [cursos.map] in REORDER_LIBROS. *)
Definition reorder_libros (cursoId isbn0 direction : string)
    (c : Curso.t) : Curso.t :=
  if decide (Curso.id c ≠ cursoId) then c
  else match findIndex_isbn isbn0 (Curso.libros c) with
       | None => c
       | Some index =>
           Curso.mk (Curso.id c) (Curso.nombre c)
             (reordena direction index (Curso.libros c))
       end.

(** The callback of [alumnos.map] in MARCAR_LIBRO. *)
Definition marcar (alumnoId barcode : string) (a : Alumno.t) : Alumno.t :=
  if decide (Alumno.id a ≠ alumnoId) then a
  else if decide (barcode ∈ Alumno.librosEntregados a) then a
  else Alumno.mk (Alumno.id a) (Alumno.nombre a) (Alumno.claseId a)
         (Alumno.librosEntregados a ++ [barcode]).

(** The callback of [alumnos.map] in DESMARCAR_LIBRO. *)
Definition desmarcar (alumnoId barcode : string) (a : Alumno.t) : Alumno.t :=
  if decide (Alumno.id a = alumnoId) then
    Alumno.mk (Alumno.id a) (Alumno.nombre a) (Alumno.claseId a)
      (filter (λ b, b ≠ barcode) (Alumno.librosEntregados a))
  else a.

(** [x === id ? null : x] on a nullable identifier. *)
Definition limpia_si (id0 : string) (x : option string) : option string :=
  if decide (x = Some id0) then None else x.

(** [reducer(state, action)]; [uid] is the identifier that [uid()] returns
    if this call draws one. *)
Definition reducer (uid : string) (state : State) (action : Action) : State :=
  let sel := seleccion state in
  match action with
  | ADD_CURSO payload =>
      let nuevo := Curso.mk uid (trim payload) [] in
      {| cursos := cursos state ++ [nuevo];
         clases := clases state;
         alumnos := alumnos state;
         seleccion := Seleccion.mk (Some (Curso.id nuevo))
                        (Seleccion.claseId sel) (Seleccion.alumnoId sel) |}
  | DEL_CURSO cursoId =>
      {| cursos := filter (λ c, Curso.id c ≠ cursoId) (cursos state);
         clases := clases state;
         alumnos := alumnos state;
         seleccion := Seleccion.mk (limpia_si cursoId (Seleccion.cursoId sel))
                        (Seleccion.claseId sel) (Seleccion.alumnoId sel) |}
  | ADD_LIBRO_A_CURSO cursoId isbn0 title0 =>
      {| cursos := add_libro cursoId isbn0 title0 <$> cursos state;
         clases := clases state;
         alumnos := alumnos state;
         seleccion := sel |}
  | DEL_LIBRO_DE_CURSO cursoId isbn0 =>
      {| cursos := del_libro cursoId isbn0 <$> cursos state;
         clases := clases state;
         alumnos := alumnos state;
         seleccion := sel |}
  | REORDER_LIBROS cursoId isbn0 direction =>
      {| cursos := reorder_libros cursoId isbn0 direction <$> cursos state;
         clases := clases state;
         alumnos := alumnos state;
         seleccion := sel |}
  | ADD_CLASE cursoId nombre =>
      let nueva := Clase.mk uid (trim nombre) cursoId in
      {| cursos := cursos state;
         clases := clases state ++ [nueva];
         alumnos := alumnos state;
         seleccion := sel |}
  | DEL_CLASE claseId =>
      {| cursos := cursos state;
         clases := filter (λ c, Clase.id c ≠ claseId) (clases state);
         alumnos := alumnos state;
         seleccion := Seleccion.mk (Seleccion.cursoId sel)
                        (limpia_si claseId (Seleccion.claseId sel))
                        (Seleccion.alumnoId sel) |}
  | ADD_ALUMNO claseId nombre =>
      let nuevo := Alumno.mk uid (trim nombre) claseId [] in
      {| cursos := cursos state;
         clases := clases state;
         alumnos := alumnos state ++ [nuevo];
         seleccion := Seleccion.mk (Seleccion.cursoId sel)
                        (Seleccion.claseId sel) (Some (Alumno.id nuevo)) |}
  | DEL_ALUMNO payload =>
      {| cursos := cursos state;
         clases := clases state;
         alumnos := filter (λ a, Alumno.id a ≠ payload) (alumnos state);
         seleccion := Seleccion.mk (Seleccion.cursoId sel)
                        (Seleccion.claseId sel)
                        (limpia_si payload (Seleccion.alumnoId sel)) |}
  | SELECT_CURSO payload =>
      {| cursos := cursos state; clases := clases state;
         alumnos := alumnos state;
         seleccion := Seleccion.mk payload None None |}
  | SELECT_CLASE payload =>
      {| cursos := cursos state; clases := clases state;
         alumnos := alumnos state;
         seleccion := Seleccion.mk (Seleccion.cursoId sel) payload None |}
  | SELECT_ALUMNO payload =>
      {| cursos := cursos state; clases := clases state;
         alumnos := alumnos state;
         seleccion := Seleccion.mk (Seleccion.cursoId sel)
                        (Seleccion.claseId sel) payload |}
  | MARCAR_LIBRO alumnoId barcode =>
      {| cursos := cursos state; clases := clases state;
         alumnos := marcar alumnoId barcode <$> alumnos state;
         seleccion := sel |}
  | DESMARCAR_LIBRO alumnoId barcode =>
      {| cursos := cursos state; clases := clases state;
         alumnos := desmarcar alumnoId barcode <$> alumnos state;
         seleccion := sel |}
  | IMPORT_STATE payload => payload
  | RESET_STATE => estado_vacio
  | OTRA _ => state
  end.

(** A run of the reducer: each action comes with the identifier that
    [uid()] would give to it. *)
Definition ejecuta (state : State) (pasos : list (string * Action)) : State :=
  foldl (λ s p, reducer p.1 s p.2) state pasos.

(** The states that actions of the reducer reach from a given state. *)
Inductive alcanzable (s0 : State) : State → Prop :=
| alc_inicio : alcanzable s0 s0
| alc_paso s uid a : alcanzable s0 s → alcanzable s0 (reducer uid s a).

(** ** Loading the scanning library: [sanitizeCdnUrl] *)

Definition ZXING_ESM_URL : string :=
  "https://cdn.jsdelivr.net/npm/@zxing/browser@0.1.5/esm/index.js".

Definition ZXING_FALLBACK_URLS : list string :=
  [ ZXING_ESM_URL;
    "https://cdn.jsdelivr.net/npm/@zxing/browser@0.1.5/+esm";
    "https://esm.sh/@zxing/browser@0.1.5" ].

(** [s.slice(n)]. *)
Fixpoint quita (n : nat) (s : string) : string :=
  match n, s with
  | S n', String _ s' => quita n' s'
  | _, _ => s
  end.

(** [s.replace(re, rep)] for a regular expression [re] without flags whose
    source is a sequence of literal characters [pat]: the leftmost
    occurrence of [pat] is replaced, once. [rep] has no [$] pattern. *)
Fixpoint reemplaza_primera (pat rep s : string) : string :=
  if String.prefix pat s then rep +:+ quita (String.length pat) s
  else match s with
       | EmptyString => EmptyString
       | String a s' => String a (reemplaza_primera pat rep s')
       end.

(** The whole of [s] is in the language of [\/*esm]. *)
Fixpoint barras_esm (s : string) : bool :=
  match s with
  | String "/" s' => barras_esm s'
  | _ => bool_decide (s = "esm")
  end.

(** The regular expression [/\/+esm$/] matches at the start of [s]: one
    slash or more, then [esm], then the end of the input. The quantifier
    [+] binds the slash; the expression has no literal plus sign. *)
Definition casa_barras_esm_fin (s : string) : bool :=
  match s with
  | String "/" s' => barras_esm s'
  | _ => false
  end.

(** [s.replace(/\/+esm$/, "")]: the leftmost match is removed. *)
Fixpoint quita_barras_esm_fin (s : string) : string :=
  if casa_barras_esm_fin s then EmptyString
  else match s with
       | EmptyString => EmptyString
       | String a s' => String a (quita_barras_esm_fin s')
       end.

Definition sanitizeCdnUrl (url : string) : string :=
  if decide (url = "") then ZXING_ESM_URL
  else
    let out := url in
    let out :=
      reemplaza_primera
        "https://cdn.jsdelivr.net/npm/https://cdn.jsdelivr.net/npm/"
        "https://cdn.jsdelivr.net/npm/" out in
    let out := quita_barras_esm_fin out in
    out.

(** ** The scanner: the callback of [decodeFromStream] *)

(** The content of [ultimoLeidoRef]. *)
Record Leido := { code : string; ts : Z }.

(** [useRef({ code: "", ts: 0 })]. *)
Definition ultimoLeido_inicial : Leido := {| code := ""; ts := 0 |}.

Inductive EfectoEscaner :=
| PlayBeep
| OnDetect (code : string).

(** The condition of the [if] inside the callback. *)
Definition acepta (ultimo : Leido) (code0 : string) (now : Z) : bool :=
  bool_decide (code0 ≠ "")
  && (bool_decide (code0 ≠ code ultimo) || bool_decide (now - ts ultimo > 2500)%Z).

(** One call of the callback: [result] is [None] when the decoder reports
    no result for the frame, [now] is [Date.now()]. *)
Definition callback_decode (ultimo : Leido) (result : option string) (now : Z)
    : Leido * list EfectoEscaner :=
  match result with
  | None => (ultimo, [])
  | Some code0 =>
      if acepta ultimo code0 now
      then ({| code := code0; ts := now |}, [PlayBeep; OnDetect code0])
      else (ultimo, [])
  end.

(** A series of decoded frames, each with its clock reading. *)
Fixpoint escanea (ultimo : Leido) (lecturas : list (string * Z))
    : Leido * list EfectoEscaner :=
  match lecturas with
  | [] => (ultimo, [])
  | (code0, now) :: resto =>
      let '(u1, e1) := callback_decode ultimo (Some code0) now in
      let '(u2, e2) := escanea u1 resto in
      (u2, e1 ++ e2)
  end.

(** The codes handed to [onDetect], in order. *)
Definition detectados (es : list EfectoEscaner) : list string :=
  omap (λ e, match e with OnDetect c => Some c | PlayBeep => None end) es.

(** ** Effects of the handlers of the sections *)

Inductive TipoMsg := success | error.

Record Msg := { text : string; type : TipoMsg }.

(** A parsed JSON value. A number is [mantisa * 10 ^ exponente]. *)
Unset Elimination Schemes.
Inductive JSON :=
| JNull
| JBool (b : bool)
| JNum (mantisa exponente : Z)
| JStr (s : string)
| JArr (elementos : list JSON)
| JObj (campos : list (string * JSON)).
Set Elimination Schemes.

(** [dispatch(action)], [dispatch({type: 'IMPORT_STATE', payload: parsed})]
    with the parsed value as it is, [setMsg(m)] and [setModal({type: null})]. *)
Inductive Efecto :=
| Dispatch (a : Action)
| DispatchImport (parsed : JSON)
| SetMsg (m : Msg)
| CierraModal.

(** The double quote character. *)
Definition comilla : string := String (ascii_of_nat 34) EmptyString.

(** ** Control section: derived selection and [handleScan] *)

Definition claseSel (state : State) : option Clase.t :=
  snd <$> list_find
    (λ c, Some (Clase.id c) = Seleccion.claseId (seleccion state))
    (clases state).

Definition alumnosEnClase (state : State) : list Alumno.t :=
  filter (λ a, Some (Alumno.claseId a) = Seleccion.claseId (seleccion state))
    (alumnos state).

Definition alumnoSel (state : State) : option Alumno.t :=
  snd <$> list_find
    (λ a, Some (Alumno.id a) = Seleccion.alumnoId (seleccion state))
    (alumnosEnClase state).

(** [claseSel?.cursoId] is [undefined] without a selected class, and no
    course has that identifier. *)
Definition cursoDeClase (state : State) : option Curso.t :=
  snd <$> list_find
    (λ c, Some (Curso.id c) = Clase.cursoId <$> claseSel state)
    (cursos state).

(** [cursoDeClase.libros.find(l => l.isbn === barcode)]. *)
Definition libroRequerido (c : Curso.t) (barcode : string) : option BookRef :=
  snd <$> list_find (λ l, isbn l = barcode) (Curso.libros c).

(** [handleScan] of SeccionControl, on the two values it closes over. *)
Definition handleScan (alumnoSel0 : option Alumno.t)
    (cursoDeClase0 : option Curso.t) (barcode : string) : list Efecto :=
  match alumnoSel0, cursoDeClase0 with
  | Some a, Some c =>
      match libroRequerido c barcode with
      | Some l =>
          [ Dispatch (MARCAR_LIBRO (Alumno.id a) barcode);
            SetMsg {| text := comilla +:+ title l +:+ comilla +:+ " marcado.";
                      type := success |} ]
      | None =>
          [ SetMsg {| text := "Libro no encontrado en la lista del curso.";
                      type := error |} ]
      end
  | _, _ => []
  end.

(** ** Management section: [confirmarBorradoCurso] *)

Definition confirmarBorradoCurso (state : State) (curso : Curso.t)
    : list Efecto :=
  let isUsed :=
    bool_decide (Exists (λ c, Clase.cursoId c = Curso.id curso) (clases state)) in
  (if isUsed
   then [ SetMsg {| text := "No se puede borrar un curso que está en uso por una clase.";
                    type := error |} ]
   else [ Dispatch (DEL_CURSO (Curso.id curso)) ])
  ++ [ CierraModal ].

(** ** Import: the [onload] callback of [importarJSON] *)

(** [v.k] for a key [k] that no prototype defines; [None] is [undefined].
    An object holds one value per key, read here at its first occurrence;
    every other kind of value has no such property. *)
Definition campo (k : string) (v : JSON) : option JSON :=
  match v with
  | JObj campos => (λ r, r.2.2) <$> list_find (λ p, p.1 = k) campos
  | _ => None
  end.

(** Truthiness of a parsed value; [!v] is its negation. *)
Definition verdadero (v : JSON) : bool :=
  match v with
  | JNull => false
  | JBool b => b
  | JNum m _ => bool_decide (m ≠ 0%Z)
  | JStr s => bool_decide (s ≠ "")
  | JArr _ | JObj _ => true
  end.

(** Truthiness of [v.k], which may be [undefined]. *)
Definition verdadero_campo (k : string) (v : JSON) : bool :=
  from_option verdadero false (campo k v).

(** The callback of [reader.onload]. [resultado] is the outcome of
    [JSON.parse(event.target.result)]: [inl message] when it throws an
    error with that message, [inr parsed] when it returns. The [throw] of
    the format check is caught by the same [catch]. *)
Definition importarJSON_onload (resultado : string + JSON) : list Efecto :=
  match resultado with
  | inl message =>
      [ SetMsg {| text := "Error al importar: " +:+ message; type := error |} ]
  | inr parsed =>
      if negb (verdadero parsed)
         || negb (verdadero_campo "cursos" parsed)
         || negb (verdadero_campo "clases" parsed)
         || negb (verdadero_campo "alumnos" parsed)
      then [ SetMsg {| text := "Error al importar: " +:+ "Formato no válido.";
                       type := error |} ]
      else [ DispatchImport parsed;
             SetMsg {| text := "Datos importados correctamente.";
                       type := success |} ]
  end.

(** ** The typed view of an imported payload *)

Definition js_string (v : JSON) : option string :=
  match v with JStr s => Some s | _ => None end.

(** A nullable identifier; an absent field reads as [null]. *)
Definition js_nullable (o : option JSON) : option (option string) :=
  match o with
  | None | Some JNull => Some None
  | Some (JStr s) => Some (Some s)
  | Some _ => None
  end.

Definition js_array {A} (f : JSON → option A) (v : JSON) : option (list A) :=
  match v with JArr l => mapM f l | _ => None end.

Definition libro_de_json (v : JSON) : option BookRef :=
  i ← campo "isbn" v ≫= js_string;
  t ← campo "title" v ≫= js_string;
  Some {| isbn := i; title := t |}.

Definition curso_de_json (v : JSON) : option Curso.t :=
  i ← campo "id" v ≫= js_string;
  n ← campo "nombre" v ≫= js_string;
  ls ← campo "libros" v ≫= js_array libro_de_json;
  Some (Curso.mk i n ls).

Definition clase_de_json (v : JSON) : option Clase.t :=
  i ← campo "id" v ≫= js_string;
  n ← campo "nombre" v ≫= js_string;
  c ← campo "cursoId" v ≫= js_string;
  Some (Clase.mk i n c).

Definition alumno_de_json (v : JSON) : option Alumno.t :=
  i ← campo "id" v ≫= js_string;
  n ← campo "nombre" v ≫= js_string;
  c ← campo "claseId" v ≫= js_string;
  ls ← campo "librosEntregados" v ≫= js_array js_string;
  Some (Alumno.mk i n c ls).

Definition seleccion_de_json (v : JSON) : option Seleccion.t :=
  match v with
  | JObj _ =>
      c ← js_nullable (campo "cursoId" v);
      k ← js_nullable (campo "claseId" v);
      a ← js_nullable (campo "alumnoId" v);
      Some (Seleccion.mk c k a)
  | _ => None
  end.

(** The snapshot that a payload denotes when its records have the shape of
    the typedefs; [None] for a payload outside the data model, which the
    import does not check. *)
Definition estado_de_json (v : JSON) : option State :=
  cs ← campo "cursos" v ≫= js_array curso_de_json;
  ks ← campo "clases" v ≫= js_array clase_de_json;
  als ← campo "alumnos" v ≫= js_array alumno_de_json;
  sel ← campo "seleccion" v ≫= seleccion_de_json;
  Some {| cursos := cs; clases := ks; alumnos := als; seleccion := sel |}.

(** ** The application: the snapshot, the notice, and [dispatch] *)

Record App := { state : State; msg : Msg }.

(** One effect on the application. [dispatch] is
    [setState(reducer(state, action))]. The result is [None] only for an
    imported payload with no typed view. *)
Definition aplica (uid : string) (app : App) (e : Efecto) : option App :=
  match e with
  | Dispatch a =>
      Some {| state := reducer uid (state app) a; msg := msg app |}
  | DispatchImport parsed =>
      st ← estado_de_json parsed;
      Some {| state := reducer uid (state app) (IMPORT_STATE st);
              msg := msg app |}
  | SetMsg m => Some {| state := state app; msg := m |}
  | CierraModal => Some app
  end.

(** The effects of one handler, in order; a handler dispatches at most
    once, so one identifier is enough. *)
Fixpoint aplica_todos (uid : string) (app : App) (es : list Efecto)
    : option App :=
  match es with
  | [] => Some app
  | e :: es' => app' ← aplica uid app e; aplica_todos uid app' es'
  end.

(** The actions that a list of effects sends to the reducer. *)
Definition es_dispatch (e : Efecto) : bool :=
  match e with
  | Dispatch _ | DispatchImport _ => true
  | SetMsg _ | CierraModal => false
  end.

(** ** Effects of a handler of an earlier render *)

(** One effect of a handler that belongs to the render of the snapshot
    [montado]: its [dispatch] is [setState(reducer(montado, action))], so
    the new snapshot is computed from [montado] and replaces the current
    one; [setMsg] sets the notice as usual. *)
Definition aplica_montado (uid : string) (montado : State) (app : App)
    (e : Efecto) : option App :=
  match e with
  | Dispatch a =>
      Some {| state := reducer uid montado a; msg := msg app |}
  | DispatchImport parsed =>
      st ← estado_de_json parsed;
      Some {| state := reducer uid montado (IMPORT_STATE st);
              msg := msg app |}
  | SetMsg m => Some {| state := state app; msg := m |}
  | CierraModal => Some app
  end.

Fixpoint aplica_todos_montado (uid : string) (montado : State) (app : App)
    (es : list Efecto) : option App :=
  match es with
  | [] => Some app
  | e :: es' =>
      app' ← aplica_montado uid montado app e;
      aplica_todos_montado uid montado app' es'
  end.

(** One code handed by the scanner of the control section to the
    [handleScan] of the render that mounted it. [Escaner] runs [iniciar]
    in an effect without dependencies, so the callback of
    [decodeFromStream] keeps the [onDetect] of that render, which resolved
    the student and the course from [montado] and dispatches on it. *)
Definition escaneo_control (uid : string) (montado : State) (app : App)
    (barcode : string) : option App :=
  aplica_todos_montado uid montado app
    (handleScan (alumnoSel montado) (cursoDeClase montado) barcode).

(** ** Persistence: [loadState] and the written snapshot *)

(** The object literal that [loadState] returns for an empty store. *)
Definition estado_vacio_json : JSON :=
  JObj [ ("cursos", JArr []); ("clases", JArr []); ("alumnos", JArr []);
         ("seleccion", JObj [ ("cursoId", JNull); ("claseId", JNull);
                              ("alumnoId", JNull) ]) ].

(** [loadState()]. [almacenado] is [None] when the stored item is absent
    or the empty text ([!raw]); otherwise it is the outcome of
    [JSON.parse(raw)], [inl message] when it throws. Reading a property of
    [null] throws too, and every exception ends in the same [catch]. *)
Definition loadState (almacenado : option (string + JSON)) : JSON :=
  match almacenado with
  | None => estado_vacio_json
  | Some (inl _) => estado_vacio_json
  | Some (inr JNull) => estado_vacio_json
  | Some (inr parsed) =>
      if negb (verdadero_campo "cursos" parsed)
         || negb (verdadero_campo "clases" parsed)
         || negb (verdadero_campo "alumnos" parsed)
      then estado_vacio_json
      else parsed
  end.

Definition json_de_nullable (o : option string) : JSON :=
  match o with None => JNull | Some s => JStr s end.

Definition json_de_libro (l : BookRef) : JSON :=
  JObj [ ("isbn", JStr (isbn l)); ("title", JStr (title l)) ].

Definition json_de_curso (c : Curso.t) : JSON :=
  JObj [ ("id", JStr (Curso.id c)); ("nombre", JStr (Curso.nombre c));
         ("libros", JArr (json_de_libro <$> Curso.libros c)) ].

Definition json_de_clase (c : Clase.t) : JSON :=
  JObj [ ("id", JStr (Clase.id c)); ("nombre", JStr (Clase.nombre c));
         ("cursoId", JStr (Clase.cursoId c)) ].

Definition json_de_alumno (a : Alumno.t) : JSON :=
  JObj [ ("id", JStr (Alumno.id a)); ("nombre", JStr (Alumno.nombre a));
         ("claseId", JStr (Alumno.claseId a));
         ("librosEntregados", JArr (JStr <$> Alumno.librosEntregados a)) ].

Definition json_de_seleccion (sel : Seleccion.t) : JSON :=
  JObj [ ("cursoId", json_de_nullable (Seleccion.cursoId sel));
         ("claseId", json_de_nullable (Seleccion.claseId sel));
         ("alumnoId", json_de_nullable (Seleccion.alumnoId sel)) ].

(** The value that the text [JSON.stringify(state)] denotes, for a state
    of the typedefs: what [saveState] stores and [exportar('json')]
    writes, read back by [JSON.parse]. *)
Definition json_de_estado (s : State) : JSON :=
  JObj [ ("cursos", JArr (json_de_curso <$> cursos s));
         ("clases", JArr (json_de_clase <$> clases s));
         ("alumnos", JArr (json_de_alumno <$> alumnos s));
         ("seleccion", json_de_seleccion (seleccion s)) ].

(** ** Export: the rows and the text of the CSV report *)

Definition cabecera_csv : list string :=
  [ "alumno_nombre"; "clase_nombre"; "curso_nombre"; "libro_isbn";
    "libro_titulo"; "entregado" ].

(** [state.clases.find(c => c.id === a.claseId)]. *)
Definition clase_de_alumno (state : State) (a : Alumno.t) : option Clase.t :=
  snd <$> list_find (λ c, Clase.id c = Alumno.claseId a) (clases state).

(** [state.cursos.find(c => c.id === clase?.cursoId)]. *)
Definition curso_de_clase (state : State) (clase : option Clase.t)
    : option Curso.t :=
  snd <$> list_find (λ c, Some (Curso.id c) = Clase.cursoId <$> clase)
            (cursos state).

(** The rows that the body of [state.alumnos.forEach] pushes for one
    student. *)
Definition filas_de_alumno (state : State) (a : Alumno.t)
    : list (list string) :=
  let clase := clase_de_alumno state a in
  let curso := curso_de_clase state clase in
  match clase, curso with
  | Some clase, Some curso =>
      (λ l,
         let entregado :=
           if decide (isbn l ∈ Alumno.librosEntregados a) then "1" else "0" in
         [ Alumno.nombre a; Clase.nombre clase; Curso.nombre curso;
           isbn l; title l; entregado ])
      <$> Curso.libros curso
  | _, _ => []
  end.

(** The array [filas] of the CSV branch of [exportar]. *)
Definition filas (state : State) : list (list string) :=
  cabecera_csv :: (alumnos state ≫= filas_de_alumno state).

(** The [replace] of the CSV branch, global over the double quote: every
    double quote is written twice. *)
Fixpoint duplica_comillas (s : string) : string :=
  match s with
  | EmptyString => EmptyString
  | String a s' =>
      if decide (a = ascii_of_nat 34)
      then String a (String a (duplica_comillas s'))
      else String a (duplica_comillas s')
  end.

(** One field of the CSV text, between double quotes. *)
Definition campo_csv (s : string) : string :=
  comilla +:+ duplica_comillas s +:+ comilla.

(** The text of the report: fields joined by commas, rows by line feeds. *)
Definition csv (state : State) : string :=
  String.concat (String (ascii_of_nat 10) EmptyString)
    ((λ f, String.concat "," (campo_csv <$> f)) <$> filas state).

(** ** Control section: the checklist [ListaControlLibros] *)

(** One entry of the checklist: the book, whether the student has handed
    it in, and the action of the unmark button, shown only when it has. *)
Record FilaControl := {
  libro : BookRef;
  entregado : bool;
  boton : option Action
}.

(** [ListaControlLibros]; [None] is the [null] rendered without a student
    or a course. *)
Definition ListaControlLibros (alumnoSel0 : option Alumno.t)
    (curso : option Curso.t) : option (list FilaControl) :=
  match alumnoSel0, curso with
  | Some a, Some c =>
      Some ((λ l,
               let e := bool_decide (isbn l ∈ Alumno.librosEntregados a) in
               {| libro := l; entregado := e;
                  boton := if e
                           then Some (DESMARCAR_LIBRO (Alumno.id a) (isbn l))
                           else None |})
            <$> Curso.libros c)
  | _, _ => None
  end.

(** ** Students section: the handler of the add button *)

Module SeccionAlumnos.

(** The handler of the button (and of the Enter key): [nuevo] is the text
    of the input, [claseSeleccionada] the class chosen in the section. The
    result is the effects and the text of the input afterwards. *)
Definition agregar (nuevo claseSeleccionada : string)
    : list Efecto * string :=
  if decide (trim nuevo = "") then ([], nuevo)
  else ([ Dispatch (ADD_ALUMNO claseSeleccionada nuevo) ], "").

End SeccionAlumnos.

(** ** Management section: derived values, [handleScan] and the class guard *)

Module SeccionGestion.

Definition cursoSel (state : State) : option Curso.t :=
  snd <$> list_find
    (λ c, Some (Curso.id c) = Seleccion.cursoId (seleccion state))
    (cursos state).

(** [state.clases.filter(c => c.id && c.cursoId === state.seleccion.cursoId)]. *)
Definition clasesEnCurso (state : State) : list Clase.t :=
  filter (λ c, Clase.id c ≠ "" ∧
               Some (Clase.cursoId c) = Seleccion.cursoId (seleccion state))
    (clases state).

(** The effects of the section that are not those of the control section:
    the search indicator and the modal that asks for a title. *)
Inductive EfectoGestion :=
| Efecto_ (e : Efecto)
| SetIsBuscando (b : bool)
| AbreModalManual (barcode : string).

(** [handleScan] of the section. [tituloEncontrado] is what
    [buscarLibroPorISBN(barcode)] resolves to: a title, or [None] for
    [null]. The course is the one of the render that created the handler. *)
Definition handleScan (cursoSel0 : option Curso.t)
    (tituloEncontrado : option string) (barcode : string)
    : list EfectoGestion :=
  match cursoSel0 with
  | None => []
  | Some c =>
      [ SetIsBuscando true; SetIsBuscando false ] ++
      match tituloEncontrado with
      | Some t =>
          if decide (t = "") then [ AbreModalManual barcode ]
          else
            [ Efecto_ (Dispatch (ADD_LIBRO_A_CURSO (Curso.id c) barcode (Some t)));
              Efecto_ (SetMsg {| text := "Libro " +:+ comilla +:+ t +:+ comilla
                                         +:+ " añadido.";
                                 type := success |}) ]
      | None => [ AbreModalManual barcode ]
      end
  end.

(** The effects on the application among those of the section. *)
Definition efectos_app (es : list EfectoGestion) : list Efecto :=
  omap (λ e, match e with Efecto_ e' => Some e' | _ => None end) es.

Definition confirmarBorradoClase (state : State) (clase : Clase.t)
    : list Efecto :=
  let isUsed :=
    bool_decide (Exists (λ a, Alumno.claseId a = Clase.id clase) (alumnos state)) in
  (if isUsed
   then [ SetMsg {| text := "No se puede borrar una clase con alumnos. Mueve o elimina los alumnos primero.";
                    type := error |} ]
   else [ Dispatch (DEL_CLASE (Clase.id clase)) ])
  ++ [ CierraModal ].

End SeccionGestion.

(** One code handed by the scanner of the management section to the
    [handleScan] of the render that mounted it, with the title that the
    lookup resolves to: the selected course is the one of [montado], and
    so is the snapshot the dispatch works on. *)
Definition escaneo_gestion (uid : string) (montado : State) (app : App)
    (tituloEncontrado : option string) (barcode : string) : option App :=
  aplica_todos_montado uid montado app
    (SeccionGestion.efectos_app
       (SeccionGestion.handleScan (SeccionGestion.cursoSel montado)
          tituloEncontrado barcode)).

(** ** Loading the scanning library: [loadZXing] *)

(** The outcome of the dynamic [import(url)]: it throws, or it resolves to
    a module that has or has not a [BrowserMultiFormatReader]. *)
Inductive Importado (M : Type) :=
| ImportaError (e : string)
| ImportaModulo (m : M) (tieneReader : bool).
Arguments ImportaError {M} e.
Arguments ImportaModulo {M} m tieneReader.

(** The loop of [loadZXing] from a given [lastErr] over the candidates
    left, and the final [throw]: the result is [inl] with the message of
    the error thrown, [inr] with the module returned. *)
Fixpoint loadZXing_desde {M} (importa : string → Importado M)
    (lastErr : option string) (candidatos : list string) : string + M :=
  match candidatos with
  | [] =>
      inl (default "No se pudo cargar @zxing/browser desde CDN." lastErr)
  | candidate :: resto =>
      let url := sanitizeCdnUrl candidate in
      match importa url with
      | ImportaModulo m true => inr m
      | ImportaModulo _ false => loadZXing_desde importa lastErr resto
      | ImportaError e => loadZXing_desde importa (Some e) resto
      end
  end.

Definition loadZXing {M} (importa : string → Importado M) : string + M :=
  loadZXing_desde importa None ZXING_FALLBACK_URLS.

(** ** The embedded test runner *)

(** The three cases of [ejecutarPruebas], with the identifiers that the
    three calls of [uid()] return: the names and whether each passes. The
    selection read after ADD_CURSO and after ADD_ALUMNO holds an
    identifier, and the class list read after ADD_CLASE has a first
    element, so [default] never takes its first argument here. *)
Definition ejecutarPruebas (u1 u2 u3 : string) : list (string * bool) :=
  let malformed :=
    "https://cdn.jsdelivr.net/npm/https://cdn.jsdelivr.net/npm/@zxing/browser@0.1.5/esm/index.js/+esm" in
  let caso1 := bool_decide (sanitizeCdnUrl malformed = ZXING_ESM_URL) in
  let caso2 := bool_decide (sanitizeCdnUrl ZXING_ESM_URL = ZXING_ESM_URL) in
  let base := estado_vacio in
  let s := reducer u1 base (ADD_CURSO "Prueba Curso") in
  let cursoId := Seleccion.cursoId (seleccion s) in
  let s := reducer u2 s (ADD_CLASE (default "" cursoId) "1ºA") in
  let claseId := default "" (Clase.id <$> clases s !! 0) in
  let s := reducer "" s
             (ADD_LIBRO_A_CURSO (default "" cursoId) "9788499890944"
                (Some "El Quijote")) in
  let s := reducer u3 s (ADD_ALUMNO claseId "Ana") in
  let alumnoId := Seleccion.alumnoId (seleccion s) in
  let s := reducer "" s (MARCAR_LIBRO (default "" alumnoId) "9788499890944") in
  let alumno :=
    snd <$> list_find (λ a, Some (Alumno.id a) = alumnoId) (alumnos s) in
  let caso3 :=
    from_option
      (λ a, bool_decide ("9788499890944" ∈ Alumno.librosEntregados a))
      false alumno in
  [ ("Sanitiza URL ZXing duplicada", caso1);
    ("URL correcta permanece igual", caso2);
    ("MARCAR_LIBRO añade el ISBN a entregados", caso3) ].

(** ** Vocabulary of the added properties *)

(** Every class references a course of the state. *)
Definition clases_con_curso (s : State) : Prop :=
  ∀ k, k ∈ clases s → ∃ c, c ∈ cursos s ∧ Curso.id c = Clase.cursoId k.

(** Every student references a class of the state. *)
Definition alumnos_con_clase (s : State) : Prop :=
  ∀ a, a ∈ alumnos s → ∃ k, k ∈ clases s ∧ Clase.id k = Alumno.claseId a.

(** No two courses, no two classes and no two students share an id. *)
Definition ids_unicos (s : State) : Prop :=
  NoDup (Curso.id <$> cursos s) ∧ NoDup (Clase.id <$> clases s) ∧
  NoDup (Alumno.id <$> alumnos s).

(** The identifier that [uid()] gives to the action is not the id of an
    entity of the kind that the action creates. *)
Definition uid_nuevo (uid : string) (s : State) (a : Action) : Prop :=
  match a with
  | ADD_CURSO _ => uid ∉ Curso.id <$> cursos s
  | ADD_CLASE _ _ => uid ∉ Clase.id <$> clases s
  | ADD_ALUMNO _ _ => uid ∉ Alumno.id <$> alumnos s
  | _ => True
  end.

(** ** Vocabulary of the properties *)

(** The action is a mark or an unmark of [barcode] for [alumnoId]. *)
Definition sobre_par (alumnoId barcode : string) (a : Action) : Prop :=
  a = MARCAR_LIBRO alumnoId barcode ∨ a = DESMARCAR_LIBRO alumnoId barcode.

(** No delivered list holds an isbn twice. *)
Definition entregados_sin_repetir (s : State) : Prop :=
  Forall (λ a, NoDup (Alumno.librosEntregados a)) (alumnos s).

(** No course lists an isbn twice. *)
Definition isbn_sin_repetir (s : State) : Prop :=
  Forall (λ c, NoDup (isbn <$> Curso.libros c)) (cursos s).

(** The stored selection is a strict hierarchy: a selected class has a
    selected course, exists and belongs to it; a selected student has a
    selected class, exists and belongs to it. *)
Definition seleccion_jerarquica (s : State) : Prop :=
  (∀ k, Seleccion.claseId (seleccion s) = Some k →
     ∃ cu, Seleccion.cursoId (seleccion s) = Some cu ∧
           ∃ c, c ∈ clases s ∧ Clase.id c = k ∧ Clase.cursoId c = cu) ∧
  (∀ a, Seleccion.alumnoId (seleccion s) = Some a →
     ∃ k, Seleccion.claseId (seleccion s) = Some k ∧
          ∃ al, al ∈ alumnos s ∧ Alumno.id al = a ∧ Alumno.claseId al = k).

(** An action whose imported payload, if it is an import, satisfies [P]. *)
Definition importa_solo (P : State → Prop) (a : Action) : Prop :=
  match a with
  | IMPORT_STATE payload => P payload
  | _ => True
  end.

(** The states reached from [s0] by actions that import only payloads
    satisfying [P]. *)
Inductive alcanzable_importando (P : State → Prop) (s0 : State) : State → Prop :=
| alci_inicio : alcanzable_importando P s0 s0
| alci_paso s uid a :
    alcanzable_importando P s0 s → importa_solo P a →
    alcanzable_importando P s0 (reducer uid s a).

(** The dedup rule in the words of the specification: the code differs
    from the last accepted one, or at least 2500 ms have passed. *)
Definition filtro_segun_spec (ultimo : Leido) (code0 : string) (now : Z) : Prop :=
  code0 ≠ code ultimo ∨ (now - ts ultimo >= 2500)%Z.

(** The number of double quotes of a text. *)
Fixpoint cuenta_comillas (s : string) : nat :=
  match s with
  | EmptyString => 0
  | String a s' =>
      (if decide (a = ascii_of_nat 34) then 1 else 0) + cuenta_comillas s'
  end.

(** Each reading has another code than the one before it, [previo] being
    the code before the first. *)
Fixpoint codigos_alternos (previo : string) (lecturas : list (string * Z))
    : Prop :=
  match lecturas with
  | [] => True
  | (c, _) :: resto => c ≠ previo ∧ codigos_alternos c resto
  end.

(** The messages of the errors that the imports of the candidates throw,
    in the order of the candidates. *)
Definition errores_lanzados {M} (importa : string → Importado M)
    (candidatos : list string) : list string :=
  omap (λ candidate,
          match importa (sanitizeCdnUrl candidate) with
          | ImportaError e => Some e
          | ImportaModulo _ _ => None
          end) candidatos.

(** The import of the candidate, sanitized, gives a module with a reader. *)
Definition con_reader {M} (importa : string → Importado M)
    (candidate : string) : Prop :=
  ∃ m, importa (sanitizeCdnUrl candidate) = ImportaModulo m true.


(** The states reached from [s0] when every [uid()] is new for the
    collection it goes to and every import brings unique ids. *)
Inductive alcanzable_ids (s0 : State) : State → Prop :=
| alcid_inicio : alcanzable_ids s0 s0
| alcid_paso s uid a :
    alcanzable_ids s0 s → uid_nuevo uid s a → importa_solo ids_unicos a →
    alcanzable_ids s0 (reducer uid s a).

(** ** Sample snapshots and inputs *)

(** A state with two students, the second of which holds one book. *)
Definition estado_dos_alumnos : State :=
  {| cursos :=
       [ Curso.mk "k1" "Curso"
           [ {| isbn := "9788499890944"; title := "El Quijote" |};
             {| isbn := "9780000000001"; title := "Atlas" |};
             {| isbn := "9780000000002"; title := "Lengua" |} ] ];
     clases := [Clase.mk "c1" "1A" "k1"];
     alumnos :=
       [ Alumno.mk "a1" "Ana" "c1" []; Alumno.mk "a2" "Luis" "c1" ["111"] ];
     seleccion := Seleccion.mk (Some "k1") (Some "c1") (Some "a1") |}.

(** A payload with the three collections in which a course lists one isbn
    twice. *)
Definition estado_isbn_repetido : State :=
  {| cursos :=
       [ Curso.mk "k1" "Curso"
           [ {| isbn := "9788499890944"; title := "El Quijote" |};
             {| isbn := "9788499890944"; title := "Don Quijote" |} ] ];
     clases := []; alumnos := [];
     seleccion := Seleccion.mk None None None |}.

(** The run of the embedded test of the reducer, up to the creation of the
    student: a course, a class in it, a book, a student in the class. *)
Definition pasos_prueba : list (string * Action) :=
  [ ("k1", ADD_CURSO "Prueba Curso");
    ("c1", ADD_CLASE "k1" "1ºA");
    ("", ADD_LIBRO_A_CURSO "k1" "9788499890944" (Some "El Quijote"));
    ("a1", ADD_ALUMNO "c1" "Ana") ].

(** The malformed locator of the embedded test. *)
Definition url_malformada : string :=
  "https://cdn.jsdelivr.net/npm/https://cdn.jsdelivr.net/npm/@zxing/browser@0.1.5/esm/index.js/+esm".

(** A payload with the three collections in which a student holds one
    isbn twice. *)
Definition estado_entregado_repetido : State :=
  {| cursos := []; clases := [Clase.mk "c1" "1A" "k1"];
     alumnos := [ Alumno.mk "a1" "Ana" "c1" ["111"; "111"] ];
     seleccion := Seleccion.mk None None None |}.

(** The malformed locator of the scenario of the specification. *)
Definition url_ejemplo_spec : string :=
  "https://cdn.example/npm/https://cdn.example/npm/lib@1/index.js/+esm".

(** A payload without the [clases] collection. *)
Definition json_sin_clases : JSON :=
  JObj [ ("cursos", JArr []); ("alumnos", JArr []);
         ("seleccion", JObj [ ("cursoId", JNull); ("claseId", JNull);
                              ("alumnoId", JNull) ]) ].

(** * Proofs *)

(** ** Trimming *)

(** [trim] on white space of more than one byte: the no-break space
    U+00A0, the ideographic space U+3000 and the mark U+FEFF go; the
    zero-width space U+200B, which is not white space, and the letters of
    more than one byte stay, like the white space inside the text. *)
Lemma trim_ejemplos :
  let nbsp := de_bytes [194; 160] in
  let ideografico := de_bytes [227; 128; 128] in
  let marca := de_bytes [239; 187; 191] in
  let ancho_cero := de_bytes [226; 128; 139] in
  trim (nbsp +:+ nbsp) = "" ∧
  trim (" " +:+ nbsp +:+ "Ana  Ruiz" +:+ nbsp +:+ " ") = "Ana  Ruiz" ∧
  trim (ideografico +:+ "Ana" +:+ ideografico) = "Ana" ∧
  trim (marca +:+ "Ana" +:+ marca) = "Ana" ∧
  trim (ancho_cero +:+ "Ana") = ancho_cero +:+ "Ana" ∧
  trim ("Ana" +:+ nbsp +:+ "Ruiz") = "Ana" +:+ nbsp +:+ "Ruiz" ∧
  trim "María" = "María" ∧
  trim "" = "".
Proof. by vm_compute. Qed.

(** ** Marking and unmarking *)

Lemma marcar_campos t b a :
  Alumno.id (marcar t b a) = Alumno.id a ∧
  Alumno.nombre (marcar t b a) = Alumno.nombre a ∧
  Alumno.claseId (marcar t b a) = Alumno.claseId a.
Proof. unfold marcar. repeat case_decide; done. Qed.

Lemma desmarcar_campos t b a :
  Alumno.id (desmarcar t b a) = Alumno.id a ∧
  Alumno.nombre (desmarcar t b a) = Alumno.nombre a ∧
  Alumno.claseId (desmarcar t b a) = Alumno.claseId a.
Proof. unfold desmarcar. case_decide; done. Qed.

Lemma marcar_otro t b a : Alumno.id a ≠ t → marcar t b a = a.
Proof. intros H. unfold marcar. by rewrite decide_True. Qed.

Lemma desmarcar_otro t b a : Alumno.id a ≠ t → desmarcar t b a = a.
Proof. intros H. unfold desmarcar. by rewrite decide_False. Qed.

Lemma marcar_presente t b a :
  b ∈ Alumno.librosEntregados a → marcar t b a = a.
Proof. intros H. unfold marcar. case_decide; [done|]. by rewrite decide_True. Qed.

Lemma marcar_entregado t b a :
  Alumno.id a = t → b ∈ Alumno.librosEntregados (marcar t b a).
Proof.
  intros H. unfold marcar. rewrite decide_False by (intros ?; done).
  case_decide; [done|]. simpl. apply elem_of_app. right.
  by apply list_elem_of_singleton.
Qed.

Lemma desmarcar_no_entregado t b a :
  Alumno.id a = t → b ∉ Alumno.librosEntregados (desmarcar t b a).
Proof.
  intros H. unfold desmarcar. rewrite decide_True by done. simpl.
  rewrite list_elem_of_filter. tauto.
Qed.

Lemma marcar_idempotente t b a : marcar t b (marcar t b a) = marcar t b a.
Proof.
  destruct (decide (Alumno.id a = t)) as [Heq|Hne].
  - apply marcar_presente. by apply marcar_entregado.
  - rewrite (marcar_otro t b a Hne). by apply marcar_otro.
Qed.

Lemma marcar_sin_repetir t b a :
  NoDup (Alumno.librosEntregados a) →
  NoDup (Alumno.librosEntregados (marcar t b a)).
Proof.
  intros H. unfold marcar. repeat case_decide; try done. simpl.
  apply NoDup_app. split_and!; [done| |apply NoDup_singleton].
  intros x Hx Hb. apply list_elem_of_singleton in Hb. by subst.
Qed.

Lemma desmarcar_sin_repetir t b a :
  NoDup (Alumno.librosEntregados a) →
  NoDup (Alumno.librosEntregados (desmarcar t b a)).
Proof.
  intros H. unfold desmarcar. case_decide; [|done]. simpl.
  by apply NoDup_filter.
Qed.

Lemma fmap_sin_cambio {A} (f : A → A) (l : list A) :
  Forall (λ x, f x = x) l → f <$> l = l.
Proof.
  induction 1 as [|x l Hx _ IH]; [done|].
  rewrite fmap_cons, Hx. by f_equal.
Qed.

Lemma estado_eta s :
  {| cursos := cursos s; clases := clases s; alumnos := alumnos s;
     seleccion := seleccion s |} = s.
Proof. by destruct s. Qed.

Lemma ejecuta_app s p1 p2 : ejecuta s (p1 ++ p2) = ejecuta (ejecuta s p1) p2.
Proof. unfold ejecuta. apply foldl_app. Qed.

Lemma sobre_par_ids t b uid s a :
  sobre_par t b a →
  Alumno.id <$> alumnos (reducer uid s a) = Alumno.id <$> alumnos s.
Proof.
  intros [-> | ->]; simpl; rewrite <- list_fmap_compose;
    apply list_fmap_ext; intros i x _; simpl.
  - apply marcar_campos.
  - apply desmarcar_campos.
Qed.

Lemma sobre_par_sin_repetir t b uid s a :
  sobre_par t b a →
  entregados_sin_repetir s → entregados_sin_repetir (reducer uid s a).
Proof.
  unfold entregados_sin_repetir.
  intros [-> | ->] H; simpl; apply Forall_fmap;
    (eapply Forall_impl; [exact H|]); intros x Hx; simpl.
  - by apply marcar_sin_repetir.
  - by apply desmarcar_sin_repetir.
Qed.

Lemma ejecuta_sobre_par t b s pasos :
  Forall (λ p, sobre_par t b p.2) pasos →
  Alumno.id <$> alumnos (ejecuta s pasos) = Alumno.id <$> alumnos s ∧
  (entregados_sin_repetir s → entregados_sin_repetir (ejecuta s pasos)).
Proof.
  intros H. revert s. induction H as [|[u a] pasos Ha _ IH]; intros s.
  - done.
  - simpl in *. destruct (IH (reducer u s a)) as [IH1 IH2]. split.
    + rewrite IH1. by eapply sobre_par_ids.
    + intros Hs. apply IH2. by eapply sobre_par_sin_repetir.
Qed.

(** Every action keeps the delivered lists free of repeated isbn, provided
    that an import brings a payload that is. *)
Lemma reducer_entregados_sin_repetir uid s a :
  entregados_sin_repetir s → importa_solo entregados_sin_repetir a →
  entregados_sin_repetir (reducer uid s a).
Proof.
  unfold entregados_sin_repetir. intros Hs Ha.
  destruct a; simpl in *; try done.
  - apply Forall_app. split; [done|]. apply Forall_singleton. simpl.
    apply NoDup_nil_2.
  - apply Forall_forall. intros x Hx.
    apply list_elem_of_filter in Hx as [_ Hx].
    by eapply Forall_forall in Hs.
  - apply Forall_fmap. eapply Forall_impl; [exact Hs|]. intros x Hx.
    by apply marcar_sin_repetir.
  - apply Forall_fmap. eapply Forall_impl; [exact Hs|]. intros x Hx.
    by apply desmarcar_sin_repetir.
Qed.

(** C10 — MARCAR_LIBRO and DESMARCAR_LIBRO change nothing but the
    delivered list of the targeted student: courses, classes and selection
    are those of the input, the students keep their positions, every
    student keeps its id, name and class, every student with another id is
    unchanged, and when no student has the given id the whole snapshot is
    unchanged. *)
Theorem marcar_desmarcar_marco (uid : string) (s : State)
    (alumnoId barcode : string) (a : Action) :
  sobre_par alumnoId barcode a →
  let s' := reducer uid s a in
  cursos s' = cursos s ∧ clases s' = clases s ∧ seleccion s' = seleccion s ∧
  Forall2
    (λ x x', Alumno.id x' = Alumno.id x ∧
             Alumno.nombre x' = Alumno.nombre x ∧
             Alumno.claseId x' = Alumno.claseId x ∧
             (Alumno.id x ≠ alumnoId → x' = x))
    (alumnos s) (alumnos s') ∧
  (Forall (λ x, Alumno.id x ≠ alumnoId) (alumnos s) → s' = s).
Proof.
  intros [-> | ->]; simpl; split_and!; try done.
  - apply Forall2_fmap_r, Forall_Forall2_diag, Forall_forall. intros x _.
    destruct (marcar_campos alumnoId barcode x) as (? & ? & ?).
    split_and!; try done. intros Hne. by apply marcar_otro.
  - intros Hno. rewrite fmap_sin_cambio; [apply estado_eta|].
    eapply Forall_impl; [exact Hno|]. intros x Hx. by apply marcar_otro.
  - apply Forall2_fmap_r, Forall_Forall2_diag, Forall_forall. intros x _.
    destruct (desmarcar_campos alumnoId barcode x) as (? & ? & ?).
    split_and!; try done. intros Hne. by apply desmarcar_otro.
  - intros Hno. rewrite fmap_sin_cambio; [apply estado_eta|].
    eapply Forall_impl; [exact Hno|]. intros x Hx. by apply desmarcar_otro.
Qed.

Lemma marcar_desmarcar_marco_witness :
  let s' := reducer "" estado_dos_alumnos (MARCAR_LIBRO "a1" "9788499890944") in
  cursos s' = cursos estado_dos_alumnos ∧
  alumnos s' !! 1 = alumnos estado_dos_alumnos !! 1 ∧
  (Alumno.librosEntregados <$> alumnos s' !! 0) = Some ["9788499890944"].
Proof.
  pose proof (marcar_desmarcar_marco "" estado_dos_alumnos "a1" "9788499890944"
                (MARCAR_LIBRO "a1" "9788499890944") (or_introl eq_refl)) as H.
  simpl in H. destruct H as (Hc & _). split; [exact Hc|]. split; reflexivity.
Defined.

(** C4 (as the code has it) — after any sequence of marks and unmarks of
    one (student, isbn) pair, from any starting state, the isbn is in the
    delivered list of that student exactly when the last action of the
    sequence is a mark, and the students are the same as at the start; a
    mark applied twice equals a mark applied once; a mark of an isbn that
    the student already holds changes nothing; and delivered lists without
    a repeated isbn stay so, which makes them free of repeated isbn in
    every state reached from the empty snapshot by actions that import no
    payload with a repeated one. *)
Theorem marcar_desmarcar_ultima (s : State) (alumnoId barcode : string)
    (pasos : list (string * Action)) (uid uid' : string) (ultima : Action) :
  Forall (λ p, sobre_par alumnoId barcode p.2) pasos →
  sobre_par alumnoId barcode ultima →
  let final := ejecuta s (pasos ++ [(uid, ultima)]) in
  let marca := MARCAR_LIBRO alumnoId barcode in
  Alumno.id <$> alumnos final = Alumno.id <$> alumnos s ∧
  (∀ a, a ∈ alumnos final → Alumno.id a = alumnoId →
     (barcode ∈ Alumno.librosEntregados a ↔ ultima = marca)) ∧
  reducer uid' (reducer uid s marca) marca = reducer uid s marca ∧
  ((∀ a, a ∈ alumnos s → Alumno.id a = alumnoId →
      barcode ∈ Alumno.librosEntregados a) →
   reducer uid s marca = s) ∧
  (entregados_sin_repetir s → entregados_sin_repetir final) ∧
  (∀ s1, alcanzable_importando entregados_sin_repetir estado_vacio s1 →
         entregados_sin_repetir s1).
Proof.
  intros Hpasos Hult final marca.
  assert (Htodos : Forall (λ p, sobre_par alumnoId barcode p.2)
                     (pasos ++ [(uid, ultima)])).
  { apply Forall_app. split; [done|]. by apply Forall_singleton. }
  destruct (ejecuta_sobre_par alumnoId barcode s _ Htodos) as [Hids Hnd].
  split_and!; [exact Hids| | | |exact Hnd|].
  - intros a Ha Hid. subst final. rewrite ejecuta_app in Ha. simpl in Ha.
    destruct Hult as [-> | ->]; simpl in Ha;
      apply list_elem_of_fmap in Ha as (x & -> & _).
    + split; [done|]. intros _. apply marcar_entregado.
      by destruct (marcar_campos alumnoId barcode x) as (<- & _).
    + split; [|done]. intros Hin. exfalso.
      eapply desmarcar_no_entregado; [|exact Hin].
      by destruct (desmarcar_campos alumnoId barcode x) as (<- & _).
  - subst marca. simpl. f_equal. rewrite <- list_fmap_compose.
    apply list_fmap_ext. intros i x _. apply marcar_idempotente.
  - intros Hya. subst marca. simpl.
    rewrite fmap_sin_cambio; [apply estado_eta|].
    apply Forall_forall. intros x Hx.
    destruct (decide (Alumno.id x = alumnoId)) as [Heq|Hne].
    + apply marcar_presente. by apply Hya.
    + by apply marcar_otro.
  - intros s1 Halc. induction Halc as [|s1 u a _ IH Ha].
    + apply Forall_nil_2.
    + by apply reducer_entregados_sin_repetir.
Qed.

Lemma marcar_desmarcar_ultima_witness :
  let final :=
    ejecuta estado_dos_alumnos
      ([("", MARCAR_LIBRO "a2" "111"); ("", DESMARCAR_LIBRO "a2" "111");
        ("", DESMARCAR_LIBRO "a2" "111")] ++ [("", MARCAR_LIBRO "a2" "111")]) in
  Alumno.id <$> alumnos final = ["a1"; "a2"] ∧
  (Alumno.librosEntregados <$> alumnos final !! 1) = Some ["111"] ∧
  entregados_sin_repetir final.
Proof.
  assert (H1 : Forall (λ p, sobre_par "a2" "111" p.2)
            [("", MARCAR_LIBRO "a2" "111"); ("", DESMARCAR_LIBRO "a2" "111");
             ("", DESMARCAR_LIBRO "a2" "111")]).
  { apply Forall_cons_2; [by left|]. apply Forall_cons_2; [by right|].
    apply Forall_cons_2; [by right|]. apply Forall_nil_2. }
  assert (H0 : entregados_sin_repetir estado_dos_alumnos).
  { apply Forall_cons_2; [apply NoDup_nil_2|].
    apply Forall_cons_2; [apply NoDup_singleton|apply Forall_nil_2]. }
  pose proof (marcar_desmarcar_ultima estado_dos_alumnos "a2" "111" _ "" ""
                (MARCAR_LIBRO "a2" "111") H1 (or_introl eq_refl)) as H.
  destruct H as (Hids & _ & _ & _ & Hnd & _).
  split; [exact Hids|]. split; [reflexivity|]. exact (Hnd H0).
Defined.

(** C4, the claim as stated, fails for the starting states that an
    unchecked import brings: a delivered list that holds an isbn twice
    keeps it twice under a mark, of that isbn or of another. *)
Lemma marcar_desmarcar_ultima_contraejemplo :
  let s := reducer "" estado_vacio (IMPORT_STATE estado_entregado_repetido) in
  let final := ejecuta s ([] ++ [("", MARCAR_LIBRO "a1" "111")]) in
  alcanzable estado_vacio s ∧
  sobre_par "a1" "111" (MARCAR_LIBRO "a1" "111") ∧
  Alumno.librosEntregados <$> alumnos final = [["111"; "111"]] ∧
  ¬ entregados_sin_repetir final ∧
  Alumno.librosEntregados
    <$> alumnos (ejecuta s [("", MARCAR_LIBRO "a1" "222")])
    = [["111"; "111"; "222"]].
Proof.
  split_and!.
  - apply alc_paso, alc_inicio.
  - by left.
  - reflexivity.
  - intros H. apply Forall_cons_1 in H as [H _]. simpl in H.
    apply NoDup_cons in H as [H _]. apply H, list_elem_of_here.
  - reflexivity.
Qed.

(** ** Book lists: swapping, reordering, adding and removing *)

Section intercambia.
Context {A : Type}.
Implicit Types l : list A.

Lemma length_intercambia i j l : length (intercambia i j l) = length l.
Proof.
  unfold intercambia. destruct (l !! j), (l !! i); try done.
  by rewrite !length_insert.
Qed.

(** With both indexes inside the list, the swap reads the cell [i] at [j]
    and the cell [j] at [i]. *)
Lemma intercambia_lookup i j k l :
  i < length l → j < length l →
  intercambia i j l !! k =
    l !! (if decide (k = j) then i else if decide (k = i) then j else k).
Proof.
  intros Hi Hj. unfold intercambia.
  destruct (lookup_lt_is_Some_2 l i Hi) as [ai Hai].
  destruct (lookup_lt_is_Some_2 l j Hj) as [aj Haj].
  rewrite Haj, Hai. destruct (decide (k = j)) as [->|Hkj].
  - rewrite list_lookup_insert_eq by (by rewrite length_insert). done.
  - rewrite list_lookup_insert_ne by done.
    destruct (decide (k = i)) as [->|Hki].
    + by rewrite list_lookup_insert_eq.
    + by rewrite list_lookup_insert_ne.
Qed.

End intercambia.

Lemma findIndex_isbn_Some isbn0 libros i :
  findIndex_isbn isbn0 libros = Some i ↔
  ∃ l, libros !! i = Some l ∧ isbn l = isbn0 ∧
       ∀ j l', libros !! j = Some l' → j < i → isbn l' ≠ isbn0.
Proof.
  unfold findIndex_isbn. rewrite fmap_Some. split.
  - intros ([i' l] & H & ->). apply list_find_Some in H. by exists l.
  - intros (l & H). exists (i, l). split; [|done]. by apply list_find_Some.
Qed.

(** An isbn of the list is found. *)
Lemma findIndex_isbn_presente isbn0 libros :
  isbn0 ∈ isbn <$> libros → is_Some (findIndex_isbn isbn0 libros).
Proof.
  intros Hin. apply list_elem_of_fmap in Hin as (l & Hl & Hin).
  destruct (list_find_elem_of (λ l, isbn l = isbn0) libros l Hin)
    as [[i l'] Hfind]; [done|].
  exists i. unfold findIndex_isbn. by rewrite Hfind.
Qed.

(** In a list without a repeated isbn, every book is the first with its
    isbn. *)
Lemma findIndex_isbn_sin_repetir libros i l :
  NoDup (isbn <$> libros) → libros !! i = Some l →
  findIndex_isbn (isbn l) libros = Some i.
Proof.
  intros Hnd Hi. apply findIndex_isbn_Some. exists l. split_and!; [done..|].
  intros j l' Hj Hlt Heq.
  assert (j = i); [|lia].
  eapply (proj1 (NoDup_alt _) Hnd j i (isbn l)).
  - by rewrite list_lookup_fmap, Hj, <- Heq.
  - by rewrite list_lookup_fmap, Hi.
Qed.

(** Reordering reads the old list through a one-to-one renumbering. *)
Lemma reordena_lookup direction index libros :
  index < length libros →
  ∃ σ : nat → nat, (∀ a b, σ a = σ b → a = b) ∧
    ∀ k, reordena direction index libros !! k = libros !! σ k.
Proof.
  intros Hlt. unfold reordena. repeat case_decide.
  - exists (λ k, if decide (k = index) then index - 1
                 else if decide (k = index - 1) then index else k).
    split; [intros a b; repeat case_decide; lia|].
    intros k. apply intercambia_lookup; lia.
  - exists (λ k, if decide (k = index) then index + 1
                 else if decide (k = index + 1) then index else k).
    split; [intros a b; repeat case_decide; lia|].
    intros k. apply intercambia_lookup; lia.
  - by exists (λ k, k).
Qed.

Lemma reordena_sin_repetir direction index libros :
  index < length libros →
  NoDup (isbn <$> libros) → NoDup (isbn <$> reordena direction index libros).
Proof.
  intros Hlt Hnd. destruct (reordena_lookup direction index libros Hlt)
    as (σ & Hinj & Hσ).
  apply NoDup_alt. intros a b x Ha Hb.
  rewrite list_lookup_fmap, Hσ, <- list_lookup_fmap in Ha, Hb.
  apply Hinj. exact (proj1 (NoDup_alt _) Hnd _ _ _ Ha Hb).
Qed.

Lemma filter_fmap_sin_repetir {A B} (f : A → B) (P : A → Prop)
    `{∀ x, Decision (P x)} (l : list A) :
  NoDup (f <$> l) → NoDup (f <$> filter P l).
Proof.
  induction l as [|x l IH]; [done|].
  rewrite fmap_cons, NoDup_cons, filter_cons. intros [Hx Hl].
  case_decide; [|by apply IH].
  rewrite fmap_cons, NoDup_cons. split; [|by apply IH].
  rewrite list_elem_of_fmap in Hx |- *. intros (y & Hy & Hin).
  apply list_elem_of_filter in Hin as [_ Hin]. apply Hx. by exists y.
Qed.

Lemma add_libro_sin_repetir cursoId isbn0 title0 c :
  NoDup (isbn <$> Curso.libros c) →
  NoDup (isbn <$> Curso.libros (add_libro cursoId isbn0 title0 c)).
Proof.
  intros Hnd. unfold add_libro. repeat case_decide; try done. simpl.
  rewrite fmap_app. apply NoDup_app. split_and!; [done| |apply NoDup_singleton].
  intros x Hx Hx'. apply list_elem_of_singleton in Hx'. simpl in Hx'. subst x.
  apply list_elem_of_fmap in Hx as (l & Hl & Hin).
  match goal with H : ¬ Exists _ _ |- _ => apply H end.
  apply Exists_exists. by exists l.
Qed.

Lemma add_libro_presente cursoId isbn0 title0 c :
  isbn0 ∈ isbn <$> Curso.libros c → add_libro cursoId isbn0 title0 c = c.
Proof.
  intros Hin. unfold add_libro. case_decide; [done|].
  rewrite decide_True; [done|].
  apply list_elem_of_fmap in Hin as (l & Hl & Hin).
  apply Exists_exists. by exists l.
Qed.

Lemma del_libro_sin_repetir cursoId isbn0 c :
  NoDup (isbn <$> Curso.libros c) →
  NoDup (isbn <$> Curso.libros (del_libro cursoId isbn0 c)).
Proof.
  intros Hnd. unfold del_libro. case_decide; [done|]. simpl.
  by apply filter_fmap_sin_repetir.
Qed.

Lemma reorder_libros_sin_repetir cursoId isbn0 direction c :
  NoDup (isbn <$> Curso.libros c) →
  NoDup (isbn <$> Curso.libros (reorder_libros cursoId isbn0 direction c)).
Proof.
  intros Hnd. unfold reorder_libros. case_decide; [done|].
  destruct (findIndex_isbn isbn0 (Curso.libros c)) as [i|] eqn:Hi; [|done].
  simpl. apply reordena_sin_repetir; [|done].
  apply findIndex_isbn_Some in Hi as (l & Hl & _).
  by eapply lookup_lt_Some.
Qed.

(** Every action keeps the courses free of repeated isbn, provided that an
    import brings a payload that is. *)
Lemma reducer_isbn_sin_repetir uid s a :
  isbn_sin_repetir s → importa_solo isbn_sin_repetir a →
  isbn_sin_repetir (reducer uid s a).
Proof.
  unfold isbn_sin_repetir. intros Hs Ha.
  destruct a; simpl in *; try done.
  - apply Forall_app. split; [done|]. apply Forall_singleton. simpl.
    apply NoDup_nil_2.
  - apply Forall_forall. intros c Hc.
    apply list_elem_of_filter in Hc as [_ Hc].
    by eapply Forall_forall in Hs.
  - apply Forall_fmap. eapply Forall_impl; [exact Hs|]. intros c Hc.
    by apply add_libro_sin_repetir.
  - apply Forall_fmap. eapply Forall_impl; [exact Hs|]. intros c Hc.
    by apply del_libro_sin_repetir.
  - apply Forall_fmap. eapply Forall_impl; [exact Hs|]. intros c Hc.
    by apply reorder_libros_sin_repetir.
Qed.

Lemma alcanzable_ejecuta s0 s pasos :
  alcanzable s0 s → alcanzable s0 (ejecuta s pasos).
Proof.
  revert s. induction pasos as [|[u a] pasos IH]; intros s Hs; [done|].
  simpl. apply IH. by apply alc_paso.
Qed.

Lemma alcanzable_importando_ejecuta P s0 s pasos :
  alcanzable_importando P s0 s →
  Forall (λ p, importa_solo P p.2) pasos →
  alcanzable_importando P s0 (ejecuta s pasos).
Proof.
  intros Hs Hp. revert s Hs.
  induction Hp as [|[u a] pasos Ha _ IH]; intros s Hs; [done|].
  simpl. apply IH. by apply alci_paso.
Qed.

(** C5 (as the code has it) — from a state in which no course lists an
    isbn twice, every state reached by actions of the reducer, an import
    counted only when its payload has the same property, has the property
    too; and ADD_LIBRO_A_CURSO with an isbn that the target course already
    lists leaves that course, and so its list, unchanged, whatever calls
    came before. *)
Theorem isbn_sin_repetir_invariante (s0 s : State) :
  isbn_sin_repetir s0 →
  alcanzable_importando isbn_sin_repetir s0 s →
  isbn_sin_repetir s ∧
  ∀ uid cursoId isbn0 title0 k c,
    cursos s !! k = Some c → Curso.id c = cursoId →
    isbn0 ∈ isbn <$> Curso.libros c →
    cursos (reducer uid s (ADD_LIBRO_A_CURSO cursoId isbn0 title0)) !! k
      = Some c.
Proof.
  intros H0 Halc. split.
  - induction Halc as [|s uid a _ IH Ha]; [done|].
    by apply reducer_isbn_sin_repetir.
  - intros uid cursoId isbn0 title0 k c Hk _ Hin. simpl.
    rewrite list_lookup_fmap, Hk. simpl. f_equal.
    by apply add_libro_presente.
Qed.

Lemma isbn_sin_repetir_invariante_witness :
  let s := ejecuta estado_vacio pasos_prueba in
  isbn_sin_repetir s ∧
  cursos (reducer "" s
            (ADD_LIBRO_A_CURSO "k1" "9788499890944" (Some "Otro titulo"))) !! 0
    = Some (Curso.mk "k1" "Prueba Curso"
              [ {| isbn := "9788499890944"; title := "El Quijote" |} ]).
Proof.
  assert (H0 : isbn_sin_repetir estado_vacio) by apply Forall_nil_2.
  assert (Halc : alcanzable_importando isbn_sin_repetir estado_vacio
                   (ejecuta estado_vacio pasos_prueba)).
  { apply alcanzable_importando_ejecuta; [apply alci_inicio|].
    repeat (apply Forall_cons_2; [exact I|]). apply Forall_nil_2. }
  destruct (isbn_sin_repetir_invariante _ _ H0 Halc) as [Hinv Hadd].
  split; [exact Hinv|].
  apply (Hadd "" "k1" "9788499890944" (Some "Otro titulo") 0); [reflexivity..|].
  apply list_elem_of_here.
Defined.

(** C5, the claim as stated, fails: IMPORT_STATE is an action of the
    reducer and installs its payload unchecked, so from the empty snapshot
    one import reaches a state whose course lists an isbn twice. *)
Lemma isbn_sin_repetir_import_contraejemplo :
  isbn_sin_repetir estado_vacio ∧
  alcanzable estado_vacio
    (reducer "" estado_vacio (IMPORT_STATE estado_isbn_repetido)) ∧
  ¬ isbn_sin_repetir
      (reducer "" estado_vacio (IMPORT_STATE estado_isbn_repetido)).
Proof.
  split_and!.
  - apply Forall_nil_2.
  - apply alc_paso, alc_inicio.
  - simpl. unfold isbn_sin_repetir, estado_isbn_repetido. simpl.
    intros H. apply Forall_cons_1 in H as [H _]. simpl in H.
    apply NoDup_cons in H as [H _]. apply H, list_elem_of_here.
Qed.

(** C8 — for a course of the state with the identifier of the action and
    a book whose isbn the action names, found at index [i] of the list:
    the course keeps its position, id and name and the list its length;
    with direction up and [i] the first index, or direction down and [i]
    the last index, the list is unchanged; with direction up elsewhere the
    books at [i - 1] and [i] trade places, with direction down elsewhere
    the books at [i] and [i + 1] do, and every other position keeps its
    book; courses with another identifier, classes, students and selection
    are unchanged. *)
Theorem reorder_libros_borde (uid : string) (s : State)
    (cursoId isbn0 direction : string) (k i : nat) (c : Curso.t) :
  cursos s !! k = Some c → Curso.id c = cursoId →
  findIndex_isbn isbn0 (Curso.libros c) = Some i →
  let s' := reducer uid s (REORDER_LIBROS cursoId isbn0 direction) in
  let n := length (Curso.libros c) in
  (∃ c', cursos s' !! k = Some c' ∧
     Curso.id c' = Curso.id c ∧ Curso.nombre c' = Curso.nombre c ∧
     length (Curso.libros c') = n ∧
     (direction = "up" → i = 0 → Curso.libros c' = Curso.libros c) ∧
     (direction = "down" → i = n - 1 → Curso.libros c' = Curso.libros c) ∧
     (direction = "up" → 0 < i →
        Curso.libros c' !! (i - 1) = Curso.libros c !! i ∧
        Curso.libros c' !! i = Curso.libros c !! (i - 1) ∧
        ∀ j, j ≠ i → j ≠ i - 1 → Curso.libros c' !! j = Curso.libros c !! j) ∧
     (direction = "down" → i < n - 1 →
        Curso.libros c' !! (i + 1) = Curso.libros c !! i ∧
        Curso.libros c' !! i = Curso.libros c !! (i + 1) ∧
        ∀ j, j ≠ i → j ≠ i + 1 → Curso.libros c' !! j = Curso.libros c !! j)) ∧
  (∀ k' c'', cursos s !! k' = Some c'' → Curso.id c'' ≠ cursoId →
     cursos s' !! k' = Some c'') ∧
  clases s' = clases s ∧ alumnos s' = alumnos s ∧ seleccion s' = seleccion s.
Proof.
  intros Hk Hid Hi s' n. subst s'. simpl. split_and!; try done.
  - assert (Hlt : i < n).
    { apply findIndex_isbn_Some in Hi as (l & Hl & _).
      by eapply lookup_lt_Some. }
    exists (reorder_libros cursoId isbn0 direction c).
    rewrite list_lookup_fmap, Hk. split; [done|].
    unfold reorder_libros. rewrite decide_False by (intros ?; done).
    rewrite Hi. simpl. unfold reordena. split_and!; try done.
    + repeat case_decide; try done; by rewrite length_intercambia.
    + intros -> ->. rewrite decide_False by lia.
      by rewrite decide_False by (by intros [? _]).
    + intros -> ->. rewrite decide_False by (by intros [? _]).
      rewrite decide_False by (fold n; lia). done.
    + intros -> Hpos. rewrite decide_True by done.
      rewrite !intercambia_lookup by (fold n; lia).
      split_and!.
      * rewrite decide_False by lia. by rewrite decide_True.
      * by rewrite decide_True.
      * intros j ? ?. rewrite intercambia_lookup by (fold n; lia).
        rewrite decide_False by done. by rewrite decide_False.
    + intros -> Hpos. rewrite decide_False by (by intros [? _]).
      rewrite decide_True by done.
      rewrite !intercambia_lookup by (fold n; lia).
      split_and!.
      * rewrite decide_False by lia. by rewrite decide_True.
      * by rewrite decide_True.
      * intros j ? ?. rewrite intercambia_lookup by (fold n; lia).
        rewrite decide_False by done. by rewrite decide_False.
  - intros k' c'' Hk' Hne. rewrite list_lookup_fmap, Hk'. simpl. f_equal.
    unfold reorder_libros. by rewrite decide_True.
Qed.

Lemma reorder_libros_borde_witness :
  let arriba := reducer "" estado_dos_alumnos
                  (REORDER_LIBROS "k1" "9788499890944" "up") in
  let abajo := reducer "" estado_dos_alumnos
                 (REORDER_LIBROS "k1" "9780000000001" "down") in
  (∃ c', cursos arriba !! 0 = Some c' ∧
         isbn <$> Curso.libros c' =
           ["9788499890944"; "9780000000001"; "9780000000002"]) ∧
  ((λ c, isbn <$> Curso.libros c) <$> cursos abajo !! 0) =
    Some ["9788499890944"; "9780000000002"; "9780000000001"].
Proof.
  split; [|reflexivity].
  destruct (reorder_libros_borde "" estado_dos_alumnos "k1" "9788499890944"
              "up" 0 0 _ eq_refl eq_refl eq_refl)
    as ((c' & Hk & _ & _ & _ & Hup & _) & _).
  exists c'. split; [exact Hk|]. by rewrite (Hup eq_refl eq_refl).
Defined.

(** ** Removing a course *)

(** C9 — DEL_CURSO checks nothing: it keeps, in order, exactly the courses
    whose id differs from the given one, leaves classes and students as
    they are, so a class that references the removed course stays and
    references no course, and it clears the course selection exactly when
    it equals the removed id, leaving the rest of the selection. The in-use
    guard is in [confirmarBorradoCurso]: with a class that references the
    course it reports an error and dispatches nothing, otherwise it
    dispatches DEL_CURSO. *)
Theorem del_curso_sin_comprobacion (uid : string) (s : State)
    (cursoId : string) :
  let s' := reducer uid s (DEL_CURSO cursoId) in
  cursos s' `sublist_of` cursos s ∧
  (∀ c, c ∈ cursos s' ↔ c ∈ cursos s ∧ Curso.id c ≠ cursoId) ∧
  clases s' = clases s ∧ alumnos s' = alumnos s ∧
  (∀ k, k ∈ clases s → Clase.cursoId k = cursoId →
     k ∈ clases s' ∧ ∀ c, c ∈ cursos s' → Curso.id c ≠ Clase.cursoId k) ∧
  Seleccion.cursoId (seleccion s') =
    (if decide (Seleccion.cursoId (seleccion s) = Some cursoId)
     then None else Seleccion.cursoId (seleccion s)) ∧
  Seleccion.claseId (seleccion s') = Seleccion.claseId (seleccion s) ∧
  Seleccion.alumnoId (seleccion s') = Seleccion.alumnoId (seleccion s) ∧
  (∀ curso,
     (Exists (λ k, Clase.cursoId k = Curso.id curso) (clases s) →
      Forall (λ e, es_dispatch e = false) (confirmarBorradoCurso s curso) ∧
      ∃ m, confirmarBorradoCurso s curso = [SetMsg m; CierraModal] ∧
           type m = error) ∧
     (¬ Exists (λ k, Clase.cursoId k = Curso.id curso) (clases s) →
      confirmarBorradoCurso s curso =
        [Dispatch (DEL_CURSO (Curso.id curso)); CierraModal])).
Proof.
  simpl. split_and!; try done.
  - apply sublist_filter.
  - intros c. rewrite list_elem_of_filter. tauto.
  - intros k Hk Hkc. split; [done|]. intros c Hc.
    apply list_elem_of_filter in Hc as [Hne _]. by rewrite Hkc.
  - intros curso. unfold confirmarBorradoCurso. split; intros Hex.
    + rewrite bool_decide_eq_true_2 by done. simpl. split.
      * by repeat constructor.
      * by eexists.
    + by rewrite bool_decide_eq_false_2.
Qed.

(** ** The scan handler of the control section *)

(** C7 — [handleScan] with the selected student or the course of the
    selected class absent does nothing; with both present and a book of
    the course whose isbn is the barcode, it dispatches one MARCAR_LIBRO
    for that student and barcode and then reports success with the title
    of the first such book; with both present and no such book it
    dispatches nothing and reports an error. *)
Theorem handleScan_control (alumnoSel0 : option Alumno.t)
    (cursoDeClase0 : option Curso.t) (barcode : string) :
  (alumnoSel0 = None ∨ cursoDeClase0 = None →
   handleScan alumnoSel0 cursoDeClase0 barcode = []) ∧
  (∀ a c, alumnoSel0 = Some a → cursoDeClase0 = Some c →
     ((∃ l, l ∈ Curso.libros c ∧ isbn l = barcode) →
      ∃ l, l ∈ Curso.libros c ∧ isbn l = barcode ∧
        handleScan alumnoSel0 cursoDeClase0 barcode =
          [ Dispatch (MARCAR_LIBRO (Alumno.id a) barcode);
            SetMsg {| text := comilla +:+ title l +:+ comilla +:+ " marcado.";
                      type := success |} ]) ∧
     ((∀ l, l ∈ Curso.libros c → isbn l ≠ barcode) →
      handleScan alumnoSel0 cursoDeClase0 barcode =
        [ SetMsg {| text := "Libro no encontrado en la lista del curso.";
                    type := error |} ])).
Proof.
  split.
  - intros [-> | ->]; [done|]. by destruct alumnoSel0.
  - intros a c -> ->. simpl. unfold libroRequerido. split.
    + intros (l & Hin & Hl).
      destruct (list_find_elem_of (λ l, isbn l = barcode) _ l Hin Hl)
        as [[i l'] Hfind].
      rewrite Hfind. simpl. exists l'.
      apply list_find_Some in Hfind as (Hi & Hl' & _).
      split_and!; [by eapply list_elem_of_lookup_2|done..].
    + intros Hno.
      assert (Hfind : list_find (λ l, isbn l = barcode) (Curso.libros c) = None).
      { apply list_find_None, Forall_forall. exact Hno. }
      by rewrite Hfind.
Qed.

(** ** Import *)

(** C6 — a parsed payload that lacks one of the collections [cursos],
    [clases], [alumnos] is rejected: the callback performs one effect, the
    error notice with the text of the format error, and no dispatch, so
    the reducer is not called and the snapshot of the application after
    the callback is the one before it. *)
Theorem importar_incompleto_rechazado (parsed : JSON) (k uid : string)
    (app : App) :
  k ∈ ["cursos"; "clases"; "alumnos"] → campo k parsed = None →
  let efectos := importarJSON_onload (inr parsed) in
  efectos =
    [ SetMsg {| text := "Error al importar: Formato no válido.";
                type := error |} ] ∧
  Forall (λ e, es_dispatch e = false) efectos ∧
  ∃ app', aplica_todos uid app efectos = Some app' ∧
          state app' = state app ∧ type (msg app') = error.
Proof.
  intros Hk Hcampo efectos.
  assert (Hef : efectos =
    [ SetMsg {| text := "Error al importar: Formato no válido.";
                type := error |} ]).
  { subst efectos. unfold importarJSON_onload.
    assert (Hfalso : verdadero_campo k parsed = false).
    { unfold verdadero_campo. by rewrite Hcampo. }
    repeat (apply elem_of_cons in Hk as [-> | Hk]);
      [| | |by apply elem_of_nil in Hk];
      rewrite Hfalso; simpl; rewrite ?orb_true_r; reflexivity. }
  rewrite Hef. split_and!; [done|by repeat constructor|].
  simpl. by eexists.
Qed.

Lemma importar_incompleto_rechazado_witness :
  let app := {| state := estado_dos_alumnos;
                msg := {| text := ""; type := success |} |} in
  campo "clases" json_sin_clases = None ∧
  Forall (λ e, es_dispatch e = false)
    (importarJSON_onload (inr json_sin_clases)) ∧
  ∃ app', aplica_todos "" app (importarJSON_onload (inr json_sin_clases))
            = Some app' ∧
          state app' = estado_dos_alumnos ∧ type (msg app') = error.
Proof.
  assert (Hk : "clases" ∈ ["cursos"; "clases"; "alumnos"]).
  { apply list_elem_of_further, list_elem_of_here. }
  destruct (importar_incompleto_rechazado json_sin_clases "clases" ""
              {| state := estado_dos_alumnos;
                 msg := {| text := ""; type := success |} |} Hk eq_refl)
    as (_ & Hno & Happ).
  split; [reflexivity|]. split; [exact Hno|exact Happ].
Defined.

(** ** The dedup filter of the scanner *)

Lemma acepta_true ultimo code0 now :
  acepta ultimo code0 now = true ↔
  code0 ≠ "" ∧ (code0 ≠ code ultimo ∨ (now - ts ultimo > 2500)%Z).
Proof.
  unfold acepta.
  rewrite andb_true_iff, orb_true_iff, !bool_decide_eq_true. tauto.
Qed.

Lemma acepta_false_mismo code0 t now :
  (now - t ≤ 2500)%Z → acepta {| code := code0; ts := t |} code0 now = false.
Proof.
  intros Hle. apply not_true_is_false. rewrite acepta_true. simpl.
  intros [_ [Hne | Hgt]]; [done | lia].
Qed.

(** C3 (as the code has it) — the filter accepts a decoded code exactly
    when the code is not empty and either differs from the last accepted
    code or comes strictly more than 2500 ms after the last acceptance; an
    accepted code is handed to [onDetect] once and becomes the last
    accepted one, a rejected code changes nothing. So a code accepted at
    time [t] and decoded again at most 2500 ms later, in particular 500 ms
    or exactly 2500 ms later, is handed over once, and decoded once more
    beyond 2500 ms after [t], in particular 3000 ms after, it is handed
    over a second time. *)
Theorem filtro_escaner (ultimo : Leido) (code0 : string) (t d1 d2 : Z) :
  acepta ultimo code0 t = true →
  (0 ≤ d1 ≤ 2500)%Z → (2500 < d2)%Z →
  (∀ u c now,
     (acepta u c now = true ↔
      c ≠ "" ∧ (c ≠ code u ∨ (now - ts u > 2500)%Z)) ∧
     callback_decode u (Some c) now =
       (if acepta u c now
        then ({| code := c; ts := now |}, [PlayBeep; OnDetect c])
        else (u, []))) ∧
  detectados (escanea ultimo [(code0, t); (code0, t + d1)%Z]).2 = [code0] ∧
  detectados
    (escanea ultimo [(code0, t); (code0, t + d1)%Z; (code0, t + d2)%Z]).2
    = [code0; code0] ∧
  acepta {| code := code0; ts := t |} code0 (t + 2500) = false.
Proof.
  intros Hprimera Hd1 Hd2. split_and!.
  - intros u c now. split; [apply acepta_true|done].
  - simpl. rewrite Hprimera.
    rewrite acepta_false_mismo by lia. done.
  - simpl. rewrite Hprimera.
    rewrite acepta_false_mismo by lia.
    assert (Hya : acepta {| code := code0; ts := t |} code0 (t + d2) = true).
    { apply acepta_true. simpl. apply acepta_true in Hprimera as [Hne _].
      split; [done|]. right. lia. }
    by rewrite Hya.
  - apply acepta_false_mismo. lia.
Qed.

Lemma filtro_escaner_witness :
  detectados
    (escanea ultimoLeido_inicial
       [("9788499890944", 1000%Z); ("9788499890944", (1000 + 500)%Z)]).2
    = ["9788499890944"] ∧
  detectados
    (escanea ultimoLeido_inicial
       [("9788499890944", 1000%Z); ("9788499890944", (1000 + 500)%Z);
        ("9788499890944", (1000 + 3000)%Z)]).2
    = ["9788499890944"; "9788499890944"].
Proof.
  destruct (filtro_escaner ultimoLeido_inicial "9788499890944" 1000 500 3000)
    as (_ & H1 & H2 & _).
  - reflexivity.
  - lia.
  - lia.
  - split; [exact H1|exact H2].
Defined.

(** C3, the claim as stated, fails at the boundary: a code decoded exactly
    2500 ms after its last acceptance satisfies the rule of the
    specification and is rejected by the filter. *)
Lemma filtro_escaner_contraejemplo :
  let ultimo := {| code := "9788499890944"; ts := 1000 |} in
  filtro_segun_spec ultimo "9788499890944" 3500 ∧
  acepta ultimo "9788499890944" 3500 = false ∧
  ¬ (acepta ultimo "9788499890944" 3500 = true ↔
     filtro_segun_spec ultimo "9788499890944" 3500).
Proof.
  assert (Hspec : filtro_segun_spec {| code := "9788499890944"; ts := 1000 |}
                    "9788499890944" 3500).
  { right. simpl. lia. }
  split_and!; [exact Hspec|reflexivity|].
  intros [_ H]. specialize (H Hspec). discriminate H.
Qed.

(** ** The locator sanitizer *)

Lemma barras_esm_mas s : barras_esm (s +:+ "+esm") = false.
Proof.
  induction s as [|a s IH]; [reflexivity|].
  change (String a s +:+ "+esm") with (String a (s +:+ "+esm")).
  assert (Hno : bool_decide (String a (s +:+ "+esm") = "esm") = false).
  { apply bool_decide_eq_false_2. intros H. inversion H as [[Ha Hs]].
    destruct s as [|b [|c [|d s]]]; discriminate Hs. }
  unfold barras_esm; fold barras_esm.
  destruct a as [[] [] [] [] [] [] [] []]; try exact Hno. exact IH.
Qed.

Lemma append_assoc_barra s :
  s +:+ "/+esm" = (s +:+ "/") +:+ "+esm".
Proof. induction s as [|a s IH]; [done|]. exact (f_equal (String a) IH). Qed.

(** The second replacement never removes a trailing [/+esm]. *)
Lemma quita_barras_esm_fin_mas s :
  quita_barras_esm_fin (s +:+ "/+esm") = s +:+ "/+esm".
Proof.
  induction s as [|a s IH]; [reflexivity|].
  change (String a s +:+ "/+esm") with (String a (s +:+ "/+esm")).
  unfold quita_barras_esm_fin; fold quita_barras_esm_fin.
  assert (Hno : casa_barras_esm_fin (String a (s +:+ "/+esm")) = false).
  { unfold casa_barras_esm_fin.
    destruct a as [[] [] [] [] [] [] [] []]; try reflexivity.
    rewrite append_assoc_barra. apply barras_esm_mas. }
  by rewrite Hno, IH.
Qed.

(** C2 (the code at the failing input) — on the malformed locator of the
    embedded test the sanitizer collapses the duplicated prefix and keeps
    the trailing [/+esm]: the result is not the clean locator. No input
    loses a trailing [/+esm] in the second replacement; what that
    replacement removes is a trailing [esm] with the slashes before it. The
    first replacement knows one base only, so the locator of the scenario
    of the specification, with another base, comes back as it went in. The
    clean locator itself is returned unchanged. *)
Theorem sanitizeCdnUrl_conserva_mas_esm :
  sanitizeCdnUrl url_malformada = ZXING_ESM_URL +:+ "/+esm" ∧
  sanitizeCdnUrl url_malformada ≠ ZXING_ESM_URL ∧
  (∀ s, quita_barras_esm_fin (s +:+ "/+esm") = s +:+ "/+esm") ∧
  sanitizeCdnUrl "https://cdn.jsdelivr.net/npm/@zxing/browser@0.1.5/esm"
    = "https://cdn.jsdelivr.net/npm/@zxing/browser@0.1.5" ∧
  sanitizeCdnUrl url_ejemplo_spec = url_ejemplo_spec ∧
  sanitizeCdnUrl ZXING_ESM_URL = ZXING_ESM_URL.
Proof.
  split_and!.
  - vm_compute. reflexivity.
  - vm_compute. intros H. discriminate H.
  - apply quita_barras_esm_fin_mas.
  - vm_compute. reflexivity.
  - vm_compute. reflexivity.
  - vm_compute. reflexivity.
Qed.

(** ** The selection *)

Lemma claseSel_Some s c :
  claseSel s = Some c →
  c ∈ clases s ∧ Seleccion.claseId (seleccion s) = Some (Clase.id c).
Proof.
  unfold claseSel. intros H. apply fmap_Some in H as ([i c'] & H & ->).
  apply list_find_Some in H as (Hi & Hc & _). simpl.
  split; [by eapply list_elem_of_lookup_2|done].
Qed.

Lemma alumnoSel_Some s a :
  alumnoSel s = Some a →
  a ∈ alumnos s ∧
  Seleccion.alumnoId (seleccion s) = Some (Alumno.id a) ∧
  Seleccion.claseId (seleccion s) = Some (Alumno.claseId a).
Proof.
  unfold alumnoSel, alumnosEnClase. intros H.
  apply fmap_Some in H as ([i a'] & H & ->).
  apply list_find_Some in H as (Hi & Ha & _). simpl.
  apply list_elem_of_lookup_2, list_elem_of_filter in Hi as [Hk Hin].
  done.
Qed.

Lemma cursoDeClase_Some s cu :
  cursoDeClase s = Some cu →
  cu ∈ cursos s ∧
  ∃ c, claseSel s = Some c ∧ Clase.cursoId c = Curso.id cu.
Proof.
  unfold cursoDeClase. intros H.
  apply fmap_Some in H as ([i cu'] & H & ->).
  apply list_find_Some in H as (Hi & Hc & _). simpl.
  split; [by eapply list_elem_of_lookup_2|].
  destruct (claseSel s) as [c|]; [|done]. exists c. split; [done|].
  simpl in Hc. by injection Hc.
Qed.

(** C1 (as the code has it) — the reducer keeps the stored selection
    hierarchical only on the path of the SELECT actions: SELECT_CURSO
    stores its payload as the course and clears class and student, after
    which the selection is a strict hierarchy; SELECT_CLASE stores the
    class, keeps the course and clears the student; SELECT_ALUMNO,
    ADD_CURSO and ADD_ALUMNO write only their own field, and the DEL
    actions clear only their own field, when it holds the removed id. The
    hierarchy is kept where the control view reads the selection: in every
    state, a resolved student exists, has the selected id and belongs to
    the class whose id is selected, and a resolved course exists and is
    the one referenced by the selected class, which exists. *)
Theorem seleccion_por_accion (uid : string) (s : State) :
  let sel := seleccion s in
  let despues a := seleccion (reducer uid s a) in
  (∀ p, despues (SELECT_CURSO p) = Seleccion.mk p None None ∧
        seleccion_jerarquica (reducer uid s (SELECT_CURSO p))) ∧
  (∀ p, despues (SELECT_CLASE p) =
          Seleccion.mk (Seleccion.cursoId sel) p None) ∧
  (∀ p, despues (SELECT_ALUMNO p) =
          Seleccion.mk (Seleccion.cursoId sel) (Seleccion.claseId sel) p) ∧
  (∀ nombre, despues (ADD_CURSO nombre) =
          Seleccion.mk (Some uid) (Seleccion.claseId sel)
            (Seleccion.alumnoId sel)) ∧
  (∀ claseId nombre, despues (ADD_ALUMNO claseId nombre) =
          Seleccion.mk (Seleccion.cursoId sel) (Seleccion.claseId sel)
            (Some uid)) ∧
  (∀ x, despues (DEL_CURSO x) =
          Seleccion.mk (limpia_si x (Seleccion.cursoId sel))
            (Seleccion.claseId sel) (Seleccion.alumnoId sel)) ∧
  (∀ x, despues (DEL_CLASE x) =
          Seleccion.mk (Seleccion.cursoId sel)
            (limpia_si x (Seleccion.claseId sel)) (Seleccion.alumnoId sel)) ∧
  (∀ x, despues (DEL_ALUMNO x) =
          Seleccion.mk (Seleccion.cursoId sel) (Seleccion.claseId sel)
            (limpia_si x (Seleccion.alumnoId sel))) ∧
  (∀ a, alumnoSel s = Some a →
     a ∈ alumnos s ∧
     Seleccion.alumnoId sel = Some (Alumno.id a) ∧
     Seleccion.claseId sel = Some (Alumno.claseId a)) ∧
  (∀ cu, cursoDeClase s = Some cu →
     cu ∈ cursos s ∧
     ∃ c, c ∈ clases s ∧ Seleccion.claseId sel = Some (Clase.id c) ∧
          Clase.cursoId c = Curso.id cu).
Proof.
  intros sel despues. subst sel despues. split_and!; try done.
  - apply alumnoSel_Some.
  - intros cu Hcu. apply cursoDeClase_Some in Hcu as (Hin & c & Hc & Hcc).
    apply claseSel_Some in Hc as (Hc & Hsel). split; [done|]. by exists c.
Qed.

(** C1, the claim as stated, fails: the run of the embedded test (a
    course, a class, a book, a student) ends with the new student selected
    and no class selected. *)
Lemma seleccion_jerarquica_contraejemplo :
  alcanzable estado_vacio (ejecuta estado_vacio pasos_prueba) ∧
  seleccion (ejecuta estado_vacio pasos_prueba)
    = Seleccion.mk (Some "k1") None (Some "a1") ∧
  ¬ seleccion_jerarquica (ejecuta estado_vacio pasos_prueba).
Proof.
  split_and!.
  - apply alcanzable_ejecuta, alc_inicio.
  - reflexivity.
  - intros [_ H]. destruct (H "a1" eq_refl) as (k & Hk & _).
    discriminate Hk.
Qed.

(** * Further properties of the reducer *)

(** ** Removing and adding a book *)

Lemma del_libro_absente cursoId isbn0 c :
  isbn0 ∉ isbn <$> Curso.libros c → del_libro cursoId isbn0 c = c.
Proof.
  intros Hno. unfold del_libro. case_decide; [done|].
  destruct c as [i n ls]. simpl in *. f_equal.
  induction ls as [|l ls IH]; [done|].
  rewrite fmap_cons, not_elem_of_cons in Hno. destruct Hno as [Hl Hls].
  rewrite filter_cons_True by (intros ?; by apply Hl). f_equal. by apply IH.
Qed.

Lemma del_libro_otro cursoId isbn0 c :
  Curso.id c ≠ cursoId → del_libro cursoId isbn0 c = c.
Proof. intros Hne. unfold del_libro. by rewrite decide_True. Qed.

Lemma del_libro_quita cursoId isbn0 c :
  Curso.id c = cursoId →
  isbn0 ∉ isbn <$> Curso.libros (del_libro cursoId isbn0 c).
Proof.
  intros Hid. unfold del_libro. rewrite decide_False by (intros ?; done).
  simpl. intros Hin. apply list_elem_of_fmap in Hin as (l & Hl & Hin).
  apply list_elem_of_filter in Hin as [Hne _]. done.
Qed.

Lemma del_add_libro cursoId isbn0 title0 c :
  (Curso.id c = cursoId → isbn0 ∉ isbn <$> Curso.libros c) →
  del_libro cursoId isbn0 (add_libro cursoId isbn0 title0 c) = c.
Proof.
  intros Hno. unfold add_libro. case_decide as Hid.
  - unfold del_libro. by rewrite decide_True.
  - assert (Hid' : Curso.id c = cursoId) by (by destruct (decide (Curso.id c = cursoId))).
    specialize (Hno Hid'). case_decide as Hex.
    + exfalso. apply Hno. apply Exists_exists in Hex as (l & Hin & Hl).
      apply list_elem_of_fmap. by exists l.
    + unfold del_libro. simpl. rewrite decide_False by (intros ?; done).
      simpl. rewrite filter_app, filter_cons_False, filter_nil, app_nil_r
        by (simpl; intros H; by apply H).
      pose proof (del_libro_absente cursoId isbn0 c Hno) as Hdel.
      unfold del_libro in Hdel. rewrite decide_False in Hdel by (intros ?; done).
      exact Hdel.
Qed.

(** X1 — DEL_LIBRO_DE_CURSO, for each course of the state: a course with
    another id is unchanged; a course with the id keeps its position, id
    and name, and its list becomes the books with another isbn, in their
    order; so the isbn is no longer listed, a list without the isbn is
    unchanged, and removing a second time changes nothing more. Classes,
    students and selection are untouched. *)
Theorem del_libro_de_curso_efecto (uid uid' : string) (s : State)
    (cursoId isbn0 : string) :
  let a := DEL_LIBRO_DE_CURSO cursoId isbn0 in
  let s' := reducer uid s a in
  (∀ k c, cursos s !! k = Some c →
     ∃ c', cursos s' !! k = Some c' ∧
       Curso.id c' = Curso.id c ∧ Curso.nombre c' = Curso.nombre c ∧
       Curso.libros c' `sublist_of` Curso.libros c ∧
       (Curso.id c ≠ cursoId → c' = c) ∧
       (Curso.id c = cursoId →
          (∀ l, l ∈ Curso.libros c' ↔ l ∈ Curso.libros c ∧ isbn l ≠ isbn0) ∧
          isbn0 ∉ isbn <$> Curso.libros c') ∧
       (isbn0 ∉ isbn <$> Curso.libros c → c' = c)) ∧
  reducer uid' s' a = s' ∧
  clases s' = clases s ∧ alumnos s' = alumnos s ∧ seleccion s' = seleccion s.
Proof.
  intros a s'. subst a s'. simpl. split_and!; try done.
  - intros k c Hk. exists (del_libro cursoId isbn0 c).
    rewrite list_lookup_fmap, Hk. split; [done|].
    split_and!.
    + unfold del_libro. by case_decide.
    + unfold del_libro. by case_decide.
    + unfold del_libro. case_decide; [done|]. simpl. apply sublist_filter.
    + intros Hne. unfold del_libro. by rewrite decide_True.
    + intros Hid. split; [|by apply del_libro_quita].
      intros l. unfold del_libro. rewrite decide_False by (intros ?; done).
      simpl. rewrite list_elem_of_filter. tauto.
    + apply del_libro_absente.
  - f_equal. rewrite <- list_fmap_compose. apply list_fmap_ext.
    intros i c _. simpl.
    destruct (decide (Curso.id c = cursoId)) as [Hid|Hne].
    + apply del_libro_absente. by apply del_libro_quita.
    + by rewrite !(del_libro_otro cursoId isbn0 c Hne).
Qed.

(** X2 — ADD_LIBRO_A_CURSO, for each course of the state: a course with
    another id is unchanged; a course with the id keeps its books at their
    positions and lists the isbn afterwards; when the isbn was absent the
    list grows by exactly one book at the end, whose title is the given
    one, or [Libro] followed by the isbn when the title is omitted or
    empty. *)
Theorem add_libro_a_curso_efecto (uid : string) (s : State)
    (cursoId isbn0 : string) (title0 : option string) :
  let s' := reducer uid s (ADD_LIBRO_A_CURSO cursoId isbn0 title0) in
  (∀ k c, cursos s !! k = Some c →
     ∃ c', cursos s' !! k = Some c' ∧
       Curso.id c' = Curso.id c ∧ Curso.nombre c' = Curso.nombre c ∧
       Curso.libros c `prefix_of` Curso.libros c' ∧
       (Curso.id c ≠ cursoId → c' = c) ∧
       (Curso.id c = cursoId →
          is_Some (findIndex_isbn isbn0 (Curso.libros c')) ∧
          (isbn0 ∉ isbn <$> Curso.libros c →
             ∃ t, Curso.libros c' =
                    Curso.libros c ++ [ {| isbn := isbn0; title := t |} ] ∧
                  (∀ t0, title0 = Some t0 → t0 ≠ "" → t = t0) ∧
                  (title0 = None ∨ title0 = Some "" → t = "Libro " +:+ isbn0)))) ∧
  clases s' = clases s ∧ alumnos s' = alumnos s ∧ seleccion s' = seleccion s.
Proof.
  intros s'. subst s'. simpl. split_and!; try done.
  intros k c Hk. exists (add_libro cursoId isbn0 title0 c).
  rewrite list_lookup_fmap, Hk. split; [done|].
  assert (Hpre : Curso.libros c `prefix_of`
                   Curso.libros (add_libro cursoId isbn0 title0 c)).
  { unfold add_libro. repeat case_decide; try done. simpl.
    by apply prefix_app_r. }
  split_and!; try done.
  - unfold add_libro. by repeat case_decide.
  - unfold add_libro. by repeat case_decide.
  - intros Hne. unfold add_libro. by rewrite decide_True.
  - intros Hid. unfold add_libro. rewrite decide_False by (intros ?; done).
    case_decide as Hex.
    + split.
      * apply findIndex_isbn_presente. apply Exists_exists in Hex as (l & ? & ?).
        apply list_elem_of_fmap. by exists l.
      * intros Hno. exfalso. apply Hno.
        apply Exists_exists in Hex as (l & ? & ?).
        apply list_elem_of_fmap. by exists l.
    + simpl. split.
      * apply findIndex_isbn_presente. rewrite fmap_app, elem_of_app. right.
        simpl. apply list_elem_of_here.
      * intros _. eexists. split; [done|]. unfold titulo_o_defecto. split.
        -- intros t0 -> Hne. by rewrite decide_False.
        -- intros [-> | ->]; [done|]. by rewrite decide_True.
Qed.

(** X3 — adding a book to a course that does not list its isbn and then
    removing that isbn gives back the state. *)
Theorem add_del_libro_ida_y_vuelta (uid uid' : string) (s : State)
    (cursoId isbn0 : string) (title0 : option string) :
  (∀ c, c ∈ cursos s → Curso.id c = cursoId →
        isbn0 ∉ isbn <$> Curso.libros c) →
  reducer uid' (reducer uid s (ADD_LIBRO_A_CURSO cursoId isbn0 title0))
    (DEL_LIBRO_DE_CURSO cursoId isbn0) = s.
Proof.
  intros Hno. simpl. rewrite <- list_fmap_compose.
  rewrite fmap_sin_cambio; [apply estado_eta|].
  apply Forall_forall. intros c Hc. simpl. apply del_add_libro.
  intros Hid. by apply Hno.
Qed.

Lemma add_del_libro_ida_y_vuelta_witness :
  reducer "" (reducer "" estado_dos_alumnos
                (ADD_LIBRO_A_CURSO "k1" "9780000000003" None))
    (DEL_LIBRO_DE_CURSO "k1" "9780000000003") = estado_dos_alumnos.
Proof.
  apply add_del_libro_ida_y_vuelta. intros c Hc _.
  apply list_elem_of_singleton in Hc. subst c. simpl.
  intros Hin. repeat (apply elem_of_cons in Hin as [Hin|Hin]; [discriminate Hin|]).
  by apply elem_of_nil in Hin.
Defined.

(** ** Unmarking, deleting, creating and deleting *)

Lemma filter_sin_cambio {A} (P : A → Prop) `{∀ x, Decision (P x)}
    (l : list A) :
  Forall P l → filter P l = l.
Proof.
  induction 1 as [|x l Hx _ IH]; [done|].
  rewrite filter_cons_True by done. by f_equal.
Qed.

Lemma filter_idempotente {A} (P : A → Prop) `{∀ x, Decision (P x)}
    (l : list A) :
  filter P (filter P l) = filter P l.
Proof.
  apply filter_sin_cambio, Forall_forall. intros x Hx.
  by apply list_elem_of_filter in Hx as [? _].
Qed.

Lemma limpia_si_idempotente x o : limpia_si x (limpia_si x o) = limpia_si x o.
Proof. unfold limpia_si. repeat case_decide; congruence. Qed.

Lemma limpia_si_distinto x o : limpia_si x o ≠ Some x.
Proof. unfold limpia_si. case_decide; congruence. Qed.

Lemma desmarcar_absente t b a :
  b ∉ Alumno.librosEntregados a → desmarcar t b a = a.
Proof.
  intros Hno. unfold desmarcar. case_decide; [|done].
  destruct a as [i n k ls]. simpl in *. f_equal.
  apply filter_sin_cambio, Forall_forall. intros x Hx ->. done.
Qed.

Lemma desmarcar_marcar t b a :
  (Alumno.id a = t → b ∉ Alumno.librosEntregados a) →
  desmarcar t b (marcar t b a) = a.
Proof.
  intros Hno. destruct (decide (Alumno.id a = t)) as [Hid|Hne].
  - specialize (Hno Hid). unfold marcar.
    rewrite decide_False by (intros ?; done). rewrite decide_False by done.
    unfold desmarcar. simpl. rewrite decide_True by done.
    rewrite filter_app, filter_cons_False, filter_nil, app_nil_r
      by (intros H; by apply H).
    pose proof (desmarcar_absente t b a Hno) as Hd. unfold desmarcar in Hd.
    by rewrite decide_True in Hd.
  - rewrite marcar_otro by done. by apply desmarcar_otro.
Qed.

(** X4 — DESMARCAR_LIBRO keeps every student in place and leaves in the
    delivered list of a student with the given id exactly the other isbn,
    in their order; it changes nothing when no such student holds the
    isbn; applied twice it equals applied once; and after a MARCAR_LIBRO
    of an isbn that no such student held, it gives back the state. *)
Theorem desmarcar_libro_efecto (uid uid' : string) (s : State)
    (alumnoId barcode : string) :
  let m := MARCAR_LIBRO alumnoId barcode in
  let d := DESMARCAR_LIBRO alumnoId barcode in
  let s' := reducer uid s d in
  (∀ k a, alumnos s !! k = Some a →
     ∃ a', alumnos s' !! k = Some a' ∧
       Alumno.librosEntregados a' `sublist_of` Alumno.librosEntregados a ∧
       ∀ b, b ∈ Alumno.librosEntregados a' ↔
            b ∈ Alumno.librosEntregados a ∧
            (Alumno.id a = alumnoId → b ≠ barcode)) ∧
  reducer uid' s' d = s' ∧
  ((∀ a, a ∈ alumnos s → Alumno.id a = alumnoId →
      barcode ∉ Alumno.librosEntregados a) →
   s' = s ∧ reducer uid' (reducer uid s m) d = s).
Proof.
  intros m d s'. subst m d s'. simpl. split_and!.
  - intros k a Hk. exists (desmarcar alumnoId barcode a).
    rewrite list_lookup_fmap, Hk. split; [done|].
    unfold desmarcar. case_decide as Hid; simpl.
    + split; [apply sublist_filter|]. intros b.
      rewrite list_elem_of_filter. tauto.
    + split; [done|]. intros b. tauto.
  - f_equal. rewrite <- list_fmap_compose. apply list_fmap_ext.
    intros i a _. simpl.
    destruct (decide (Alumno.id a = alumnoId)) as [Hid|Hne].
    + apply desmarcar_absente. by apply desmarcar_no_entregado.
    + by rewrite !(desmarcar_otro alumnoId barcode a Hne).
  - intros Hno. split.
    + rewrite fmap_sin_cambio; [apply estado_eta|].
      apply Forall_forall. intros a Ha.
      destruct (decide (Alumno.id a = alumnoId)) as [Hid|Hne].
      * apply desmarcar_absente. by apply Hno.
      * by apply desmarcar_otro.
    + rewrite <- list_fmap_compose.
      rewrite fmap_sin_cambio; [apply estado_eta|].
      apply Forall_forall. intros a Ha. simpl. apply desmarcar_marcar.
      intros Hid. by apply Hno.
Qed.

(** X5 — after DEL_CURSO, DEL_CLASE or DEL_ALUMNO of an id, no entity of
    that kind has the id, the selection of that kind is not the id, and a
    second deletion of the same id changes nothing. *)
Theorem del_no_deja_rastro (uid uid' : string) (s : State) (x : string) :
  let sc := reducer uid s (DEL_CURSO x) in
  let sk := reducer uid s (DEL_CLASE x) in
  let sa := reducer uid s (DEL_ALUMNO x) in
  ((∀ c, c ∈ cursos sc → Curso.id c ≠ x) ∧
   Seleccion.cursoId (seleccion sc) ≠ Some x ∧
   reducer uid' sc (DEL_CURSO x) = sc) ∧
  ((∀ k, k ∈ clases sk → Clase.id k ≠ x) ∧
   Seleccion.claseId (seleccion sk) ≠ Some x ∧
   reducer uid' sk (DEL_CLASE x) = sk) ∧
  ((∀ a, a ∈ alumnos sa → Alumno.id a ≠ x) ∧
   Seleccion.alumnoId (seleccion sa) ≠ Some x ∧
   reducer uid' sa (DEL_ALUMNO x) = sa).
Proof.
  simpl. split_and!.
  - intros c Hc. by apply list_elem_of_filter in Hc as [? _].
  - apply limpia_si_distinto.
  - by rewrite filter_idempotente, limpia_si_idempotente.
  - intros c Hc. by apply list_elem_of_filter in Hc as [? _].
  - apply limpia_si_distinto.
  - by rewrite filter_idempotente, limpia_si_idempotente.
  - intros c Hc. by apply list_elem_of_filter in Hc as [? _].
  - apply limpia_si_distinto.
  - by rewrite filter_idempotente, limpia_si_idempotente.
Qed.

(** X6 — creating a course or a student under an identifier that none has
    and then deleting that identifier gives back the three collections;
    the selection of that kind ends null, whatever was selected before the
    creation, and the rest of the selection is kept. *)
Theorem crear_y_borrar (uid uid' : string) (s : State)
    (nombre claseId : string) :
  uid ∉ Curso.id <$> cursos s → uid ∉ Alumno.id <$> alumnos s →
  let sc := reducer uid' (reducer uid s (ADD_CURSO nombre)) (DEL_CURSO uid) in
  let sa := reducer uid' (reducer uid s (ADD_ALUMNO claseId nombre))
              (DEL_ALUMNO uid) in
  (cursos sc = cursos s ∧ clases sc = clases s ∧ alumnos sc = alumnos s ∧
   seleccion sc = Seleccion.mk None (Seleccion.claseId (seleccion s))
                    (Seleccion.alumnoId (seleccion s))) ∧
  (cursos sa = cursos s ∧ clases sa = clases s ∧ alumnos sa = alumnos s ∧
   seleccion sa = Seleccion.mk (Seleccion.cursoId (seleccion s))
                    (Seleccion.claseId (seleccion s)) None).
Proof.
  intros Hc Ha. simpl. split_and!; try done.
  - rewrite filter_app, filter_cons_False, filter_nil, app_nil_r
      by (simpl; intros H; by apply H).
    apply filter_sin_cambio, Forall_forall. intros c Hin Heq.
    apply Hc. rewrite <- Heq. by apply list_elem_of_fmap_2.
  - unfold limpia_si. by rewrite decide_True.
  - rewrite filter_app, filter_cons_False, filter_nil, app_nil_r
      by (simpl; intros H; by apply H).
    apply filter_sin_cambio, Forall_forall. intros a Hin Heq.
    apply Ha. rewrite <- Heq. by apply list_elem_of_fmap_2.
  - unfold limpia_si. by rewrite decide_True.
Qed.

Lemma crear_y_borrar_witness :
  let sa := reducer "" (reducer "a3" estado_dos_alumnos (ADD_ALUMNO "c1" " Eva "))
              (DEL_ALUMNO "a3") in
  alumnos sa = alumnos estado_dos_alumnos ∧
  seleccion sa = Seleccion.mk (Some "k1") (Some "c1") None.
Proof.
  assert (Hc : "a3" ∉ Curso.id <$> cursos estado_dos_alumnos).
  { simpl. intros H. apply list_elem_of_singleton in H. discriminate H. }
  assert (Ha : "a3" ∉ Alumno.id <$> alumnos estado_dos_alumnos).
  { simpl. intros H.
    repeat (apply elem_of_cons in H as [H|H]; [discriminate H|]).
    by apply elem_of_nil in H. }
  destruct (crear_y_borrar "a3" "" estado_dos_alumnos " Eva " "c1" Hc Ha)
    as (_ & _ & _ & Hal & Hsel).
  split; [exact Hal|exact Hsel].
Defined.

(** ** Unique identifiers *)

Lemma add_libro_id cursoId isbn0 title0 c :
  Curso.id (add_libro cursoId isbn0 title0 c) = Curso.id c.
Proof. unfold add_libro. by repeat case_decide. Qed.

Lemma del_libro_id cursoId isbn0 c :
  Curso.id (del_libro cursoId isbn0 c) = Curso.id c.
Proof. unfold del_libro. by case_decide. Qed.

Lemma reorder_libros_id cursoId isbn0 direction c :
  Curso.id (reorder_libros cursoId isbn0 direction c) = Curso.id c.
Proof.
  unfold reorder_libros. case_decide; [done|].
  by destruct (findIndex_isbn isbn0 (Curso.libros c)).
Qed.

Lemma fmap_mismos_ids {A B} (id0 : A → B) (f : A → A) (l : list A) :
  (∀ x, id0 (f x) = id0 x) → id0 <$> (f <$> l) = id0 <$> l.
Proof.
  intros Hf. rewrite <- list_fmap_compose. apply list_fmap_ext.
  intros i x _. apply Hf.
Qed.

Lemma NoDup_snoc_fmap {A B} (id0 : A → B) (l : list A) (x : A) :
  NoDup (id0 <$> l) → id0 x ∉ id0 <$> l → NoDup (id0 <$> (l ++ [x])).
Proof.
  intros Hnd Hx. rewrite fmap_app. apply NoDup_app.
  split_and!; [done| |apply NoDup_singleton].
  intros y Hy Hy'. apply list_elem_of_singleton in Hy'. by subst y.
Qed.

(** An action whose [uid()] is new keeps the ids unique, provided that an
    import brings unique ids. *)
Lemma reducer_ids_unicos uid s a :
  ids_unicos s → uid_nuevo uid s a → importa_solo ids_unicos a →
  ids_unicos (reducer uid s a).
Proof.
  unfold ids_unicos. intros (Hc & Hk & Ha) Hu Hi.
  destruct a; simpl in *; try done.
  - split_and!; try done. by apply NoDup_snoc_fmap.
  - split_and!; try done. by apply filter_fmap_sin_repetir.
  - split_and!; try done.
    by rewrite (fmap_mismos_ids Curso.id) by (intros; apply add_libro_id).
  - split_and!; try done.
    by rewrite (fmap_mismos_ids Curso.id) by (intros; apply del_libro_id).
  - split_and!; try done.
    by rewrite (fmap_mismos_ids Curso.id) by (intros; apply reorder_libros_id).
  - split_and!; try done. by apply NoDup_snoc_fmap.
  - split_and!; try done. by apply filter_fmap_sin_repetir.
  - split_and!; try done. by apply NoDup_snoc_fmap.
  - split_and!; try done. by apply filter_fmap_sin_repetir.
  - split_and!; try done.
    rewrite (fmap_mismos_ids Alumno.id); [done|].
    intros x. apply marcar_campos.
  - split_and!; try done.
    rewrite (fmap_mismos_ids Alumno.id); [done|].
    intros x. apply desmarcar_campos.
  - split_and!; apply NoDup_nil_2.
Qed.

(** X7 — from a state with unique ids, as long as every [uid()] is new
    for the collection it goes to and imports bring unique ids, the ids of
    courses, of classes and of students stay unique; and then a
    MARCAR_LIBRO changes at most one student: when the student at one
    position has the id, every other position is unchanged. *)
Theorem ids_unicos_invariante (s0 s : State) :
  ids_unicos s0 → alcanzable_ids s0 s →
  ids_unicos s ∧
  ∀ uid t b i a, alumnos s !! i = Some a → Alumno.id a = t →
    ∀ j, j ≠ i →
      alumnos (reducer uid s (MARCAR_LIBRO t b)) !! j = alumnos s !! j.
Proof.
  intros H0 Halc.
  assert (Hs : ids_unicos s).
  { induction Halc as [|s uid a _ IH Hu Hi]; [done|].
    by apply reducer_ids_unicos. }
  split; [done|]. intros uid t b i a Hi Hid j Hne. simpl.
  rewrite list_lookup_fmap.
  destruct (alumnos s !! j) as [a'|] eqn:Hj; [|done]. simpl. f_equal.
  apply marcar_otro. intros Hid'. apply Hne.
  destruct Hs as (_ & _ & Hnd).
  eapply (proj1 (NoDup_alt _) Hnd j i t).
  - by rewrite list_lookup_fmap, Hj, <- Hid'.
  - by rewrite list_lookup_fmap, Hi, <- Hid.
Qed.

Lemma ids_unicos_invariante_witness :
  let s1 := reducer "k1" estado_vacio (ADD_CURSO "Prueba Curso") in
  let s2 := reducer "c1" s1 (ADD_CLASE "k1" "1ºA") in
  let s3 := reducer "a1" s2 (ADD_ALUMNO "c1" "Ana") in
  let s4 := reducer "a2" s3 (ADD_ALUMNO "c1" "Luis") in
  ids_unicos s4 ∧
  alumnos (reducer "" s4 (MARCAR_LIBRO "a1" "9788499890944")) !! 1
    = alumnos s4 !! 1.
Proof.
  intros s1 s2 s3 s4.
  assert (H0 : ids_unicos estado_vacio).
  { split_and!; apply NoDup_nil_2. }
  assert (Halc : alcanzable_ids estado_vacio s4).
  { apply alcid_paso; [apply alcid_paso; [apply alcid_paso;
      [apply alcid_paso; [apply alcid_inicio| |exact I]| |exact I]| |exact I]|
      |exact I]; simpl.
    - apply not_elem_of_nil.
    - apply not_elem_of_nil.
    - apply not_elem_of_nil.
    - intros H. apply list_elem_of_singleton in H. discriminate H. }
  destruct (ids_unicos_invariante estado_vacio s4 H0 Halc) as [Hu Hm].
  split; [exact Hu|]. by apply (Hm "" "a1" "9788499890944" 0 _ eq_refl eq_refl).
Defined.

(** * Properties of the handlers together with the reducer *)

(** ** Deleting through the dialogs *)

(** X8 — deleting a course through the dialog keeps every class with a
    course: from a state in which every class references a course of the
    state, the state after [confirmarBorradoCurso] has the same classes
    and each still references a course; the course goes exactly when no
    class references it; and a selected course that the section lists
    with classes is not deleted. *)
Theorem borrado_curso_guardado (uid : string) (app : App) (curso : Curso.t) :
  clases_con_curso (state app) →
  ∃ app',
    aplica_todos uid app (confirmarBorradoCurso (state app) curso) = Some app' ∧
    clases (state app') = clases (state app) ∧
    clases_con_curso (state app') ∧
    ((∀ k, k ∈ clases (state app) → Clase.cursoId k ≠ Curso.id curso) →
     ∀ c, c ∈ cursos (state app') → Curso.id c ≠ Curso.id curso) ∧
    (SeccionGestion.clasesEnCurso (state app) ≠ [] →
     SeccionGestion.cursoSel (state app) = Some curso →
     state app' = state app).
Proof.
  intros Hint. unfold confirmarBorradoCurso.
  destruct (decide (Exists (λ k, Clase.cursoId k = Curso.id curso)
                      (clases (state app)))) as [Hex|Hno].
  - rewrite bool_decide_eq_true_2 by done. simpl. eexists.
    split; [done|]. simpl. split_and!; try done.
    intros Hnone. exfalso. apply Exists_exists in Hex as (k & Hk & Hkc).
    by apply (Hnone k).
  - rewrite bool_decide_eq_false_2 by done. simpl. eexists.
    split; [done|]. simpl. split_and!; try done.
    + intros k Hk. destruct (Hint k Hk) as (c & Hc & Hid).
      exists c. split; [|done]. apply list_elem_of_filter. split; [|done].
      intros Heq. apply Hno, Exists_exists. exists k. split; [done|].
      by rewrite <- Hid.
    + intros _ c Hc. by apply list_elem_of_filter in Hc as [? _].
    + intros Hlista Hsel. exfalso. apply Hno.
      destruct (SeccionGestion.clasesEnCurso (state app)) as [|k ks] eqn:Hks;
        [done|].
      assert (Hk : k ∈ SeccionGestion.clasesEnCurso (state app)).
      { rewrite Hks. apply list_elem_of_here. }
      apply list_elem_of_filter in Hk as [[_ Hkc] Hk].
      unfold SeccionGestion.cursoSel in Hsel.
      apply fmap_Some in Hsel as ([i c'] & Hfind & ->).
      apply list_find_Some in Hfind as (_ & Hc & _). simpl in Hc.
      apply Exists_exists. exists k. split; [done|]. simpl.
      rewrite <- Hc in Hkc. by injection Hkc.
Qed.

Lemma borrado_curso_guardado_witness :
  let app := {| state := estado_dos_alumnos;
                msg := {| text := ""; type := success |} |} in
  ∃ app',
    aplica_todos "" app
      (confirmarBorradoCurso estado_dos_alumnos
         (Curso.mk "k1" "Curso" [])) = Some app' ∧
    clases_con_curso (state app').
Proof.
  assert (Hint : clases_con_curso estado_dos_alumnos).
  { intros k Hk. apply list_elem_of_singleton in Hk. subst k.
    eexists. split; [apply list_elem_of_here|reflexivity]. }
  destruct (borrado_curso_guardado ""
              {| state := estado_dos_alumnos;
                 msg := {| text := ""; type := success |} |}
              (Curso.mk "k1" "Curso" []) Hint)
    as (app' & Happ & _ & Hint' & _).
  exists app'. split; [exact Happ|exact Hint'].
Defined.

(** X9 — [confirmarBorradoClase] with a student in the class reports an
    error and dispatches nothing; otherwise it dispatches DEL_CLASE. So
    deleting a class through the dialog keeps every student with a class:
    from a state in which every student references a class of the state,
    the state afterwards has the same students and each still references
    a class. *)
Theorem borrado_clase_guardado (uid : string) (app : App) (clase : Clase.t) :
  alumnos_con_clase (state app) →
  let es := SeccionGestion.confirmarBorradoClase (state app) clase in
  let usada :=
    Exists (λ a, Alumno.claseId a = Clase.id clase) (alumnos (state app)) in
  (usada → ∃ m, es = [SetMsg m; CierraModal] ∧ type m = error) ∧
  (¬ usada → es = [Dispatch (DEL_CLASE (Clase.id clase)); CierraModal]) ∧
  ∃ app',
    aplica_todos uid app es = Some app' ∧
    alumnos (state app') = alumnos (state app) ∧
    alumnos_con_clase (state app') ∧
    (usada → state app' = state app) ∧
    (¬ usada → ∀ k, k ∈ clases (state app') → Clase.id k ≠ Clase.id clase).
Proof.
  intros Hint es usada. subst es usada.
  unfold SeccionGestion.confirmarBorradoClase.
  destruct (decide (Exists (λ a, Alumno.claseId a = Clase.id clase)
                      (alumnos (state app)))) as [Hex|Hno].
  - rewrite bool_decide_eq_true_2 by done. simpl. split_and!.
    + intros _. by eexists.
    + done.
    + eexists. split; [done|]. simpl. by split_and!.
  - rewrite bool_decide_eq_false_2 by done. simpl. split_and!; try done.
    eexists. split; [done|]. simpl. split_and!; try done.
    + intros a Ha. destruct (Hint a Ha) as (k & Hk & Hid).
      exists k. split; [|done]. apply list_elem_of_filter. split; [|done].
      intros Heq. apply Hno, Exists_exists. exists a. split; [done|].
      by rewrite <- Hid.
    + intros _ k Hk. by apply list_elem_of_filter in Hk as [? _].
Qed.

Lemma borrado_clase_guardado_witness :
  let app := {| state := estado_dos_alumnos;
                msg := {| text := ""; type := success |} |} in
  ∃ app',
    aplica_todos "" app
      (SeccionGestion.confirmarBorradoClase estado_dos_alumnos
         (Clase.mk "c1" "1A" "k1")) = Some app' ∧
    state app' = estado_dos_alumnos.
Proof.
  assert (Hint : alumnos_con_clase estado_dos_alumnos).
  { intros a Ha. exists (Clase.mk "c1" "1A" "k1").
    split; [apply list_elem_of_here|].
    repeat (apply elem_of_cons in Ha as [->|Ha]; [reflexivity|]).
    by apply elem_of_nil in Ha. }
  destruct (borrado_clase_guardado ""
              {| state := estado_dos_alumnos;
                 msg := {| text := ""; type := success |} |}
              (Clase.mk "c1" "1A" "k1") Hint)
    as (_ & _ & app' & Happ & _ & _ & Hsame & _).
  exists app'. split; [exact Happ|]. apply Hsame.
  apply Exists_cons_hd. reflexivity.
Defined.

(** ** Scanning in the control section, up to the checklist *)

Lemma filter_fmap_conserva {A} (P : A → Prop) `{∀ x, Decision (P x)}
    (f : A → A) (l : list A) :
  (∀ x, P (f x) ↔ P x) → filter P (f <$> l) = f <$> filter P l.
Proof.
  intros Hf. induction l as [|x l IH]; [done|].
  rewrite fmap_cons, !filter_cons.
  destruct (decide (P x)) as [Hx|Hx].
  - rewrite decide_True by (by apply Hf). rewrite fmap_cons. by f_equal.
  - by rewrite decide_False by (by rewrite Hf).
Qed.

Lemma find_fmap_conserva {A} (P : A → Prop) `{∀ x, Decision (P x)}
    (f : A → A) (l : list A) :
  (∀ x, P (f x) ↔ P x) →
  snd <$> list_find P (f <$> l) = f <$> (snd <$> list_find P l).
Proof.
  intros Hf. rewrite list_find_fmap.
  rewrite (list_find_ext (P ∘ f) P) by (intros x; apply Hf).
  by destruct (list_find P l) as [[i x]|].
Qed.

(** Marking keeps the resolved student, with the mark applied. *)
Lemma alumnoSel_marcar uid s t b :
  alumnoSel (reducer uid s (MARCAR_LIBRO t b)) = marcar t b <$> alumnoSel s.
Proof.
  unfold alumnoSel, alumnosEnClase. simpl.
  rewrite filter_fmap_conserva.
  - apply find_fmap_conserva. intros x.
    by destruct (marcar_campos t b x) as (-> & _).
  - intros x. by destruct (marcar_campos t b x) as (_ & _ & ->).
Qed.

Lemma marcar_otros_isbn t barcode a b :
  b ≠ barcode →
  (b ∈ Alumno.librosEntregados (marcar t barcode a)
   ↔ b ∈ Alumno.librosEntregados a).
Proof.
  intros Hb. unfold marcar. repeat case_decide; try done. simpl.
  rewrite elem_of_app, list_elem_of_singleton. tauto.
Qed.

(** The scan of a listed book by the mounted handler: the new snapshot is
    the one of the mount with the mark, under the notice of success. *)
Lemma escaneo_control_acierto uid montado app barcode a c :
  alumnoSel montado = Some a → cursoDeClase montado = Some c →
  barcode ∈ isbn <$> Curso.libros c →
  ∃ m, type m = success ∧
    escaneo_control uid montado app barcode =
      Some {| state := reducer uid montado
                         (MARCAR_LIBRO (Alumno.id a) barcode);
              msg := m |}.
Proof.
  intros Ha Hc Hin. unfold escaneo_control. rewrite Ha, Hc.
  unfold handleScan, libroRequerido.
  apply list_elem_of_fmap in Hin as (l & Hl & Hin).
  destruct (list_find_elem_of (λ l, isbn l = barcode) _ l Hin)
    as [[i l'] Hfind]; [done|].
  rewrite Hfind. cbn [fmap option_fmap option_map snd].
  eexists. split; [|reflexivity]. done.
Qed.

(** X10 — a scan in the control section, followed to the checklist. The
    scanner hands the code to the [handleScan] of the render that mounted
    it, so with a student and a course resolved at the mount and a barcode
    that the course lists, the state after the scan is the snapshot of the
    mount with that mark, whatever the current state was, under a notice
    of success: the resolved course is the same, the resolved student
    holds the barcode and otherwise what it held at the mount, and in the
    checklist drawn from the new state every entry of that isbn is ticked
    and offers the unmark of that student and isbn. For the first scan
    after the mount this is the state before with the mark; a second scan
    of another book in the same session leaves the second mark and not
    the first. *)
Theorem escaneo_marca_en_lista (uid uid' : string) (montado : State)
    (app : App) (a : Alumno.t) (c : Curso.t) :
  alumnoSel montado = Some a → cursoDeClase montado = Some c →
  (∀ barcode, barcode ∈ isbn <$> Curso.libros c →
     ∃ app' a' filas0,
       escaneo_control uid montado app barcode = Some app' ∧
       state app' = reducer uid montado (MARCAR_LIBRO (Alumno.id a) barcode) ∧
       type (msg app') = success ∧
       alumnoSel (state app') = Some a' ∧
       cursoDeClase (state app') = Some c ∧
       Alumno.id a' = Alumno.id a ∧
       barcode ∈ Alumno.librosEntregados a' ∧
       (∀ b, b ≠ barcode →
          (b ∈ Alumno.librosEntregados a' ↔ b ∈ Alumno.librosEntregados a)) ∧
       ListaControlLibros (alumnoSel (state app')) (cursoDeClase (state app'))
         = Some filas0 ∧
       libro <$> filas0 = Curso.libros c ∧
       ∀ f, f ∈ filas0 → isbn (libro f) = barcode →
            entregado f = true ∧
            boton f = Some (DESMARCAR_LIBRO (Alumno.id a) barcode)) ∧
  (∀ b1 b2, b1 ∈ isbn <$> Curso.libros c → b2 ∈ isbn <$> Curso.libros c →
     b1 ≠ b2 → b1 ∉ Alumno.librosEntregados a →
     ∃ app1 app2 a2,
       escaneo_control uid montado app b1 = Some app1 ∧
       escaneo_control uid' montado app1 b2 = Some app2 ∧
       alumnoSel (state app2) = Some a2 ∧
       b2 ∈ Alumno.librosEntregados a2 ∧
       b1 ∉ Alumno.librosEntregados a2).
Proof.
  intros Ha Hc.
  assert (Hsel : ∀ u b, alumnoSel (reducer u montado
                          (MARCAR_LIBRO (Alumno.id a) b))
                        = Some (marcar (Alumno.id a) b a)).
  { intros u b. by rewrite alumnoSel_marcar, Ha. }
  split.
  - intros barcode Hin.
    destruct (escaneo_control_acierto uid montado app barcode a c Ha Hc Hin)
      as (m & Hm & Hscan).
    set (a' := marcar (Alumno.id a) barcode a).
    set (s' := reducer uid montado (MARCAR_LIBRO (Alumno.id a) barcode)).
    assert (Hcur : cursoDeClase s' = Some c) by exact Hc.
    assert (Hen : barcode ∈ Alumno.librosEntregados a').
    { by apply marcar_entregado. }
    eexists {| state := s'; msg := m |}, a', _. split; [exact Hscan|].
    assert (Hs' : alumnoSel s' = Some a') by apply Hsel.
    cbn [state msg]. rewrite Hs', Hcur.
    cbn [ListaControlLibros]. split_and!; try done.
    + apply marcar_campos.
    + intros b Hb. by apply marcar_otros_isbn.
    + rewrite <- list_fmap_compose. apply list_fmap_id.
    + intros f Hf Hisbn. apply list_elem_of_fmap in Hf as (l0 & -> & _).
      cbn [libro entregado boton] in *. rewrite !Hisbn.
      rewrite bool_decide_eq_true_2 by done.
      split; [done|]. f_equal. f_equal. apply marcar_campos.
  - intros b1 b2 H1 H2 Hne Hno.
    destruct (escaneo_control_acierto uid montado app b1 a c Ha Hc H1)
      as (m1 & _ & Hs1).
    destruct (escaneo_control_acierto uid' montado
                {| state := reducer uid montado
                              (MARCAR_LIBRO (Alumno.id a) b1);
                   msg := m1 |} b2 a c Ha Hc H2)
      as (m2 & _ & Hs2).
    eexists _, _, (marcar (Alumno.id a) b2 a).
    split; [exact Hs1|]. split; [exact Hs2|]. cbn [state].
    split_and!.
    + apply Hsel.
    + by apply marcar_entregado.
    + rewrite marcar_otros_isbn; done.
Qed.

Lemma escaneo_marca_en_lista_witness :
  let app := {| state := estado_dos_alumnos;
                msg := {| text := ""; type := error |} |} in
  ∃ app' a',
    escaneo_control "" estado_dos_alumnos app "9780000000001" = Some app' ∧
    alumnoSel (state app') = Some a' ∧
    "9780000000001" ∈ Alumno.librosEntregados a'.
Proof.
  destruct (escaneo_marca_en_lista "" "" estado_dos_alumnos
              {| state := estado_dos_alumnos;
                 msg := {| text := ""; type := error |} |}
              _ _ eq_refl eq_refl) as [H _].
  destruct (H "9780000000001") as (app' & a' & filas0 & Happ & _ & _ & Hsel
                                   & _ & _ & Hen & _).
  - simpl. apply list_elem_of_further, list_elem_of_here.
  - exists app', a'. split; [exact Happ|]. split; [exact Hsel|exact Hen].
Defined.

(** ** Scanning in the management section *)

Lemma cursoSel_add_libro uid s cursoId isbn0 title0 :
  SeccionGestion.cursoSel (reducer uid s (ADD_LIBRO_A_CURSO cursoId isbn0 title0))
  = add_libro cursoId isbn0 title0 <$> SeccionGestion.cursoSel s.
Proof.
  unfold SeccionGestion.cursoSel. simpl.
  apply find_fmap_conserva. intros x. by rewrite add_libro_id.
Qed.

Lemma add_libro_nuevo c barcode t :
  t ≠ "" → barcode ∉ isbn <$> Curso.libros c →
  add_libro (Curso.id c) barcode (Some t) c =
    Curso.mk (Curso.id c) (Curso.nombre c)
      (Curso.libros c ++ [ {| isbn := barcode; title := t |} ]).
Proof.
  intros Ht Hno. unfold add_libro. rewrite decide_False by (intros ?; done).
  rewrite decide_False.
  - unfold titulo_o_defecto. by rewrite decide_False.
  - intros Hex. apply Hno. apply Exists_exists in Hex as (l & ? & ?).
    apply list_elem_of_fmap. by exists l.
Qed.

(** The scan of a book with a title found, by the mounted handler: the new
    snapshot is the one of the mount with the addition, under the notice
    of success. *)
Lemma escaneo_gestion_titulo uid montado app c t barcode :
  SeccionGestion.cursoSel montado = Some c → t ≠ "" →
  ∃ m, type m = success ∧
    escaneo_gestion uid montado app (Some t) barcode =
      Some {| state := reducer uid montado
                         (ADD_LIBRO_A_CURSO (Curso.id c) barcode (Some t));
              msg := m |}.
Proof.
  intros Hsel Ht. unfold escaneo_gestion. rewrite Hsel.
  unfold SeccionGestion.handleScan. rewrite decide_False by done.
  cbn [SeccionGestion.efectos_app omap list_omap Datatypes.app].
  eexists. split; [|reflexivity]. done.
Qed.

(** X11 — [handleScan] of the management section does nothing without a
    selected course; with one and no title found it dispatches nothing and
    asks for the title of that barcode; with a title found it dispatches
    the addition and reports success. The scanner hands the code to the
    handler of the render that mounted it, so the state afterwards is the
    snapshot of the mount with the addition, whatever the current state
    was: its selected course is the course of the mount with the book at
    the end of its list, or, when that course already listed the isbn,
    the course of the mount unchanged, the notice of success being given
    in both cases. For the first scan after the mount this appends the
    book to the current list; after a second scan of another new book in
    the same session the list is the one of the mount with the second
    book only. *)
Theorem escaneo_catalogo (uid uid' : string) (montado : State) (app : App) :
  (∀ tit barcode, SeccionGestion.handleScan None tit barcode = []) ∧
  (∀ c tit barcode, tit = None ∨ tit = Some "" →
     SeccionGestion.efectos_app (SeccionGestion.handleScan (Some c) tit barcode)
       = [] ∧
     SeccionGestion.AbreModalManual barcode
       ∈ SeccionGestion.handleScan (Some c) tit barcode) ∧
  (∀ c t barcode, SeccionGestion.cursoSel montado = Some c → t ≠ "" →
     ∃ app' c',
       escaneo_gestion uid montado app (Some t) barcode = Some app' ∧
       state app' =
         reducer uid montado
           (ADD_LIBRO_A_CURSO (Curso.id c) barcode (Some t)) ∧
       type (msg app') = success ∧
       SeccionGestion.cursoSel (state app') = Some c' ∧
       (barcode ∈ isbn <$> Curso.libros c → c' = c) ∧
       (barcode ∉ isbn <$> Curso.libros c →
        c' = Curso.mk (Curso.id c) (Curso.nombre c)
               (Curso.libros c ++ [ {| isbn := barcode; title := t |} ]))) ∧
  (∀ c t1 t2 b1 b2, SeccionGestion.cursoSel montado = Some c →
     t1 ≠ "" → t2 ≠ "" → b2 ∉ isbn <$> Curso.libros c →
     ∃ app1 app2 c2,
       escaneo_gestion uid montado app (Some t1) b1 = Some app1 ∧
       escaneo_gestion uid' montado app1 (Some t2) b2 = Some app2 ∧
       SeccionGestion.cursoSel (state app2) = Some c2 ∧
       Curso.libros c2 =
         Curso.libros c ++ [ {| isbn := b2; title := t2 |} ] ∧
       (b1 ≠ b2 → b1 ∉ isbn <$> Curso.libros c →
        b1 ∉ isbn <$> Curso.libros c2)).
Proof.
  split_and!.
  - done.
  - intros c tit barcode [-> | ->]; simpl.
    + split; [done|]. apply list_elem_of_further, list_elem_of_further,
        list_elem_of_here.
    + split; [done|]. apply list_elem_of_further, list_elem_of_further,
        list_elem_of_here.
  - intros c t barcode Hsel Ht.
    destruct (escaneo_gestion_titulo uid montado app c t barcode Hsel Ht)
      as (m & Hm & Hscan).
    eexists _, (add_libro (Curso.id c) barcode (Some t) c).
    split; [exact Hscan|]. cbn [state msg]. split; [done|]. split; [done|].
    rewrite cursoSel_add_libro, Hsel. split; [done|]. split.
    + apply add_libro_presente.
    + by apply add_libro_nuevo.
  - intros c t1 t2 b1 b2 Hsel Ht1 Ht2 Hno2.
    destruct (escaneo_gestion_titulo uid montado app c t1 b1 Hsel Ht1)
      as (m1 & _ & Hs1).
    destruct (escaneo_gestion_titulo uid' montado
                {| state := reducer uid montado
                              (ADD_LIBRO_A_CURSO (Curso.id c) b1 (Some t1));
                   msg := m1 |} c t2 b2 Hsel Ht2)
      as (m2 & _ & Hs2).
    eexists _, _, (add_libro (Curso.id c) b2 (Some t2) c).
    split; [exact Hs1|]. split; [exact Hs2|]. cbn [state].
    rewrite cursoSel_add_libro, Hsel. split; [done|].
    rewrite add_libro_nuevo by done. cbn [Curso.libros]. split; [done|].
    intros Hne Hno1. rewrite fmap_app, elem_of_app. intros [Hin|Hin].
    + done.
    + simpl in Hin. apply list_elem_of_singleton in Hin. done.
Qed.

(** ** Adding a student from the students section *)

(** X12 — the add handler of the students section refuses a name that is
    blank after trimming: nothing is dispatched, the state and the input
    are as before. Otherwise the state gains, at the end of the students,
    one student with the new id, the trimmed name, which is not empty,
    the chosen class and no delivered book; that student becomes the
    selected one, the rest of the selection, the courses and the classes
    are kept, and the input is cleared. *)
Theorem agregar_alumno_validado (uid : string) (app : App)
    (nuevo claseSeleccionada : string) :
  let r := SeccionAlumnos.agregar nuevo claseSeleccionada in
  ∃ app',
    aplica_todos uid app r.1 = Some app' ∧
    (trim nuevo = "" → r.1 = [] ∧ r.2 = nuevo ∧ app' = app) ∧
    (trim nuevo ≠ "" →
       r.2 = "" ∧
       alumnos (state app') =
         alumnos (state app)
         ++ [ Alumno.mk uid (trim nuevo) claseSeleccionada [] ] ∧
       seleccion (state app') =
         Seleccion.mk (Seleccion.cursoId (seleccion (state app)))
           (Seleccion.claseId (seleccion (state app))) (Some uid) ∧
       cursos (state app') = cursos (state app) ∧
       clases (state app') = clases (state app)).
Proof.
  unfold SeccionAlumnos.agregar. case_decide as Hb; simpl.
  - exists app. by split_and!.
  - eexists. split; [reflexivity|]. simpl. by split_and!.
Qed.

(** * Persistence and export *)

Lemma campo_cons_eq k v resto : campo k (JObj ((k, v) :: resto)) = Some v.
Proof. unfold campo, list_find. by rewrite decide_True. Qed.

Lemma campo_cons_ne k k' v resto :
  k' ≠ k → campo k (JObj ((k', v) :: resto)) = campo k (JObj resto).
Proof.
  intros Hne. unfold campo, list_find. rewrite decide_False by done.
  by destruct ((fix go (l : list (string * JSON)) := _) resto) as [[i [k0 v0]]|].
Qed.

Ltac lee_campos :=
  repeat first
    [ rewrite campo_cons_eq
    | rewrite campo_cons_ne by (let H := fresh in intros H; discriminate H) ].

Lemma libro_de_json_de l : libro_de_json (json_de_libro l) = Some l.
Proof. by destruct l. Qed.

Lemma curso_de_json_de c : curso_de_json (json_de_curso c) = Some c.
Proof.
  destruct c as [i n ls]. unfold curso_de_json, json_de_curso.
  lee_campos. simpl.
  rewrite mapM_fmap_Some by apply libro_de_json_de. done.
Qed.

Lemma clase_de_json_de c : clase_de_json (json_de_clase c) = Some c.
Proof. by destruct c. Qed.

Lemma alumno_de_json_de a : alumno_de_json (json_de_alumno a) = Some a.
Proof.
  destruct a as [i n k ls]. unfold alumno_de_json, json_de_alumno.
  lee_campos. simpl.
  rewrite mapM_fmap_Some by done. done.
Qed.

Lemma seleccion_de_json_de sel :
  seleccion_de_json (json_de_seleccion sel) = Some sel.
Proof. by destruct sel as [[c|] [k|] [a|]]. Qed.

Lemma estado_de_json_de s : estado_de_json (json_de_estado s) = Some s.
Proof.
  destruct s as [cs ks als sel]. unfold estado_de_json, json_de_estado.
  lee_campos. cbn [mbind option_bind js_array].
  rewrite !mapM_fmap_Some
    by first [apply curso_de_json_de|apply clase_de_json_de
             |apply alumno_de_json_de].
  cbn [mbind option_bind]. by rewrite seleccion_de_json_de.
Qed.

(** X13 — what is written is read back: the value of the text that
    [exportar('json')] and [saveState] write for a state denotes that
    state; [importarJSON] accepts it, even with empty collections, and the
    import installs exactly that state in place of the current one;
    [loadState] returns it as it is. *)
Theorem exportar_importar_ida_y_vuelta (uid : string) (app : App)
    (s : State) :
  estado_de_json (json_de_estado s) = Some s ∧
  importarJSON_onload (inr (json_de_estado s)) =
    [ DispatchImport (json_de_estado s);
      SetMsg {| text := "Datos importados correctamente.";
                type := success |} ] ∧
  (∃ app', aplica_todos uid app (importarJSON_onload (inr (json_de_estado s)))
             = Some app' ∧ state app' = s) ∧
  loadState (Some (inr (json_de_estado s))) = json_de_estado s.
Proof.
  assert (Hef : importarJSON_onload (inr (json_de_estado s)) =
    [ DispatchImport (json_de_estado s);
      SetMsg {| text := "Datos importados correctamente.";
                type := success |} ]) by done.
  split_and!; [apply estado_de_json_de|exact Hef| |done].
  rewrite Hef. cbn [aplica_todos aplica]. rewrite estado_de_json_de.
  by eexists.
Qed.


(** ** The CSV report *)

(** X15 — the rows of the CSV report: the first is the header and every
    row has six fields. A data row is in the report exactly when it is the
    row of a student of the state, of the first class with the id the
    student references, of the first course with the id that class
    references and of a book of that course, with 1 in the last field when
    the student holds the isbn and 0 otherwise. So a student whose class
    or course is missing has no row, and a delivered isbn that the course
    does not list has none either. The rows are in the order of the
    students and, for a student, of the books. *)
Theorem filas_del_informe (s : State) :
  head (filas s) = Some cabecera_csv ∧
  Forall (λ f, length f = 6) (filas s) ∧
  tail (filas s) = alumnos s ≫= filas_de_alumno s ∧
  (∀ f, f ∈ tail (filas s) ↔
     ∃ a k c l,
       a ∈ alumnos s ∧ clase_de_alumno s a = Some k ∧
       curso_de_clase s (Some k) = Some c ∧ l ∈ Curso.libros c ∧
       f = [ Alumno.nombre a; Clase.nombre k; Curso.nombre c; isbn l; title l;
             if decide (isbn l ∈ Alumno.librosEntregados a) then "1" else "0" ]) ∧
  (∀ a, clase_de_alumno s a = None ∨
        curso_de_clase s (clase_de_alumno s a) = None →
        filas_de_alumno s a = []) ∧
  (∀ a k c, clase_de_alumno s a = Some k → curso_de_clase s (Some k) = Some c →
     (λ f, f !! 3) <$> filas_de_alumno s a = (Some ∘ isbn) <$> Curso.libros c).
Proof.
  assert (Hiff : ∀ f, f ∈ alumnos s ≫= filas_de_alumno s ↔
     ∃ a k c l,
       a ∈ alumnos s ∧ clase_de_alumno s a = Some k ∧
       curso_de_clase s (Some k) = Some c ∧ l ∈ Curso.libros c ∧
       f = [ Alumno.nombre a; Clase.nombre k; Curso.nombre c; isbn l; title l;
             if decide (isbn l ∈ Alumno.librosEntregados a) then "1" else "0" ]).
  { intros f. rewrite list_elem_of_bind. split.
    - intros (a & Hf & Ha). unfold filas_de_alumno in Hf.
      destruct (clase_de_alumno s a) as [k|] eqn:Hk;
        [|by apply elem_of_nil in Hf].
      destruct (curso_de_clase s (Some k)) as [c|] eqn:Hc;
        [|by apply elem_of_nil in Hf].
      apply list_elem_of_fmap in Hf as (l & -> & Hl). by exists a, k, c, l.
    - intros (a & k & c & l & Ha & Hk & Hc & Hl & ->). exists a.
      split; [|done]. unfold filas_de_alumno. rewrite Hk, Hc.
      apply list_elem_of_fmap. by exists l. }
  split_and!; [done| |done|exact Hiff| |].
  - apply Forall_cons. split; [done|]. apply Forall_forall. intros f Hf.
    apply Hiff in Hf as (a & k & c & l & _ & _ & _ & _ & ->). done.
  - intros a H. unfold filas_de_alumno.
    destruct (clase_de_alumno s a) as [k|]; [|done].
    destruct H as [H|H]; [done|]. by rewrite H.
  - intros a k c Hk Hc. unfold filas_de_alumno. rewrite Hk, Hc.
    rewrite <- list_fmap_compose. by apply list_fmap_ext.
Qed.

Lemma append_comilla_inj s1 s2 :
  s1 +:+ comilla = s2 +:+ comilla → s1 = s2.
Proof.
  revert s2. induction s1 as [|a s1 IH]; intros [|b s2] H; simpl in H.
  - done.
  - injection H as _ H. by destruct s2.
  - injection H as _ H. by destruct s1.
  - injection H as -> H. f_equal. by apply IH.
Qed.

Lemma duplica_comillas_inj s1 s2 :
  duplica_comillas s1 = duplica_comillas s2 → s1 = s2.
Proof.
  revert s2. induction s1 as [|a s1 IH]; intros [|b s2] H; simpl in H.
  - done.
  - by destruct (decide (b = ascii_of_nat 34)).
  - by destruct (decide (a = ascii_of_nat 34)).
  - destruct (decide (a = ascii_of_nat 34)) as [->|Ha],
      (decide (b = ascii_of_nat 34)) as [->|Hb].
    + injection H as H. f_equal. by apply IH.
    + injection H as Hq _. by destruct Hb.
    + injection H as Hq _. by destruct Ha.
    + injection H as -> H. f_equal. by apply IH.
Qed.

Lemma cuenta_comillas_app s1 s2 :
  cuenta_comillas (s1 +:+ s2) = cuenta_comillas s1 + cuenta_comillas s2.
Proof.
  induction s1 as [|a s1 IH]; [done|]. simpl. rewrite IH. lia.
Qed.

Lemma cuenta_duplica s :
  cuenta_comillas (duplica_comillas s) = 2 * cuenta_comillas s.
Proof.
  induction s as [|a s IH]; [done|]. simpl.
  destruct (decide (a = ascii_of_nat 34)) as [->|Ha]; simpl.
  - rewrite IH. lia.
  - rewrite decide_False by done. rewrite IH. lia.
Qed.

(** X16 — the quoting of the CSV text loses nothing and keeps the quotes
    paired: two different values never give the same field, and a field
    has twice as many double quotes as its value, plus the two that
    enclose it, so every field of the text holds an even number of them. *)
Theorem campo_csv_sin_perdida (s1 s2 : string) :
  (campo_csv s1 = campo_csv s2 → s1 = s2) ∧
  cuenta_comillas (campo_csv s1) = 2 * cuenta_comillas s1 + 2.
Proof.
  split.
  - unfold campo_csv. intros H. injection H as H.
    by apply duplica_comillas_inj, append_comilla_inj.
  - unfold campo_csv. rewrite !cuenta_comillas_app, cuenta_duplica.
    change (cuenta_comillas comilla) with 1. lia.
Qed.

(** * The scanner and the loader *)

Lemma escanea_rafaga c t0 resto :
  Forall (λ r, r.1 = c ∧ (r.2 - t0 ≤ 2500)%Z) resto →
  escanea {| code := c; ts := t0 |} resto = ({| code := c; ts := t0 |}, []).
Proof.
  induction 1 as [|[c' t] resto [Hc Ht] _ IH]; [done|].
  simpl in Hc, Ht. subst c'. simpl.
  rewrite acepta_false_mismo by done. by rewrite IH.
Qed.

(** X17 — a burst gives one notice: once a code is accepted at a time
    [t0], any number of further decodes of the same code, each no more
    than 2500 ms after [t0], produce nothing; the whole series beeps once,
    hands the code over once, and leaves [t0] as the time of the last
    acceptance, so the window is not extended by the rejected decodes. *)
Theorem rafaga_un_aviso (ultimo : Leido) (c : string) (t0 : Z)
    (resto : list (string * Z)) :
  acepta ultimo c t0 = true →
  Forall (λ r, r.1 = c ∧ (r.2 - t0 ≤ 2500)%Z) resto →
  escanea ultimo ((c, t0) :: resto)
    = ({| code := c; ts := t0 |}, [PlayBeep; OnDetect c]).
Proof.
  intros Hac Hresto. simpl. rewrite Hac.
  by rewrite (escanea_rafaga c t0 resto Hresto).
Qed.

Lemma rafaga_un_aviso_witness :
  escanea ultimoLeido_inicial
    [ ("9788499890944", 1000%Z); ("9788499890944", 1040%Z);
      ("9788499890944", 1080%Z); ("9788499890944", 3500%Z) ]
  = ({| code := "9788499890944"; ts := 1000 |},
     [PlayBeep; OnDetect "9788499890944"]).
Proof.
  apply rafaga_un_aviso; [reflexivity|].
  repeat (apply Forall_cons_2; [split; [reflexivity|simpl; lia]|]).
  apply Forall_nil_2.
Defined.

Lemma detectados_app e1 e2 :
  detectados (e1 ++ e2) = detectados e1 ++ detectados e2.
Proof. unfold detectados. apply omap_app. Qed.

Lemma escanea_cons ultimo c t resto :
  escanea ultimo ((c, t) :: resto) =
    let r1 := callback_decode ultimo (Some c) t in
    let r2 := escanea r1.1 resto in
    (r2.1, r1.2 ++ r2.2).
Proof.
  simpl. destruct (acepta ultimo c t); simpl;
    by destruct (escanea _ resto).
Qed.

(** X18 — what the filter lets through: the codes handed to [onDetect]
    are, in order, some of the codes decoded, none of them empty; and the
    filter remembers one code only, so a series of non-empty codes in
    which each differs from the one before is handed over whole, whatever
    the times. *)
Theorem filtro_deja_pasar (ultimo : Leido) (lecturas : list (string * Z)) :
  detectados (escanea ultimo lecturas).2 `sublist_of` lecturas.*1 ∧
  Forall (λ c, c ≠ "") (detectados (escanea ultimo lecturas).2) ∧
  (Forall (λ r, r.1 ≠ "") lecturas →
   codigos_alternos (code ultimo) lecturas →
   detectados (escanea ultimo lecturas).2 = lecturas.*1).
Proof.
  revert ultimo. induction lecturas as [|[c t] resto IH]; intros ultimo.
  - split_and!; [done|by apply Forall_nil_2|done].
  - rewrite escanea_cons. cbn [fst snd]. rewrite detectados_app.
    unfold callback_decode.
    destruct (acepta ultimo c t) eqn:Hac; cbn [fst snd].
    + destruct (IH {| code := c; ts := t |}) as (Hsub & Hne & Halt).
      split_and!.
      * simpl. by apply sublist_skip.
      * simpl. apply Forall_cons. split; [|done].
        by apply acepta_true in Hac as [? _].
      * intros Hno [_ Hres]. simpl. f_equal. apply Halt; [|done].
        by apply Forall_cons in Hno as [_ ?].
    + destruct (IH ultimo) as (Hsub & Hne & _). split_and!.
      * simpl. by apply sublist_cons.
      * done.
      * intros Hno [Hc _]. exfalso.
        apply Forall_cons in Hno as [Hnv _]. simpl in Hnv.
        assert (Hsi : acepta ultimo c t = true).
        { apply acepta_true. split; [done|by left]. }
        rewrite Hsi in Hac. discriminate Hac.
Qed.

(** ** The ordered list of locators *)

Section loadZXing.
Context {M : Type} (importa : string → Importado M).

Lemma loadZXing_desde_inr lastErr candidatos m :
  loadZXing_desde importa lastErr candidatos = inr m ↔
  ∃ i candidate,
    candidatos !! i = Some candidate ∧
    importa (sanitizeCdnUrl candidate) = ImportaModulo m true ∧
    ∀ j c', j < i → candidatos !! j = Some c' → ¬ con_reader importa c'.
Proof.
  revert lastErr. induction candidatos as [|c cs IH]; intros lastErr.
  - simpl. split; [done|]. by intros (i & c & Hi & _).
  - simpl.
    assert (Hresto : ∀ le,
      ¬ con_reader importa c →
      (loadZXing_desde importa le cs = inr m ↔
       ∃ i candidate,
         (c :: cs) !! i = Some candidate ∧
         importa (sanitizeCdnUrl candidate) = ImportaModulo m true ∧
         ∀ j c', j < i → (c :: cs) !! j = Some c' → ¬ con_reader importa c')).
    { intros le Hc. rewrite IH. split.
      - intros (i & c0 & Hi & Him & Hprev). exists (S i), c0.
        split_and!; [done..|]. intros [|j] c' Hj Hc'; simpl in Hc'.
        + by injection Hc' as <-.
        + apply (Hprev j); [lia|done].
      - intros ([|i] & c0 & Hi & Him & Hprev); simpl in Hi.
        + injection Hi as <-. exfalso. apply Hc. by exists m.
        + exists i, c0. split_and!; [done..|]. intros j c' Hj Hc'.
          apply (Hprev (S j)); [lia|done]. }
    destruct (importa (sanitizeCdnUrl c)) as [e|m0 [|]] eqn:Him.
    + apply Hresto. intros [m' Hm']. congruence.
    + split.
      * intros [= <-]. exists 0, c. split_and!; [done..|]. intros j c' Hj. lia.
      * intros ([|i] & c0 & Hi & Him0 & Hprev); simpl in Hi.
        -- injection Hi as <-. congruence.
        -- exfalso. apply (Hprev 0 c); [lia|done|]. by exists m0.
    + apply Hresto. intros [m' Hm']. congruence.
Qed.

Lemma loadZXing_desde_inl lastErr candidatos :
  Forall (λ c, ¬ con_reader importa c) candidatos →
  loadZXing_desde importa lastErr candidatos =
    inl (default "No se pudo cargar @zxing/browser desde CDN."
           (match last (errores_lanzados importa candidatos) with
            | Some e => Some e
            | None => lastErr
            end)).
Proof.
  intros Hno. revert lastErr.
  induction Hno as [|c cs Hc _ IH]; intros lastErr; [done|].
  simpl. unfold errores_lanzados. cbn [omap list_omap].
  fold (errores_lanzados importa cs).
  destruct (importa (sanitizeCdnUrl c)) as [e|m0 [|]] eqn:Him.
  - rewrite IH. f_equal. f_equal.
    destruct (errores_lanzados importa cs) as [|e' es] eqn:Hes; [done|].
    rewrite last_cons_cons.
    destruct (last (e' :: es)) eqn:Hl; [done|]. by apply last_None in Hl.
  - exfalso. apply Hc. by exists m0.
  - apply IH.
Qed.

End loadZXing.

(** X19 — [loadZXing] tries the three locators of its list, in order and
    as they are written (the sanitizer changes none of them), and returns
    the module of the first whose import gives a module with a reader: it
    returns a module exactly when that module comes from a locator of the
    list before which no locator gives a reader. When no locator gives a
    reader it throws the last error that an import threw, or its own
    error when every import resolved. *)
Theorem loadZXing_en_orden {M : Type} (importa : string → Importado M) :
  sanitizeCdnUrl <$> ZXING_FALLBACK_URLS = ZXING_FALLBACK_URLS ∧
  (∀ m, loadZXing importa = inr m ↔
     ∃ i url,
       ZXING_FALLBACK_URLS !! i = Some url ∧
       importa url = ImportaModulo m true ∧
       ∀ j url', j < i → ZXING_FALLBACK_URLS !! j = Some url' →
                 ∀ m', importa url' ≠ ImportaModulo m' true) ∧
  ((∀ url m, url ∈ ZXING_FALLBACK_URLS → importa url ≠ ImportaModulo m true) →
   loadZXing importa =
     inl (default "No se pudo cargar @zxing/browser desde CDN."
            (last (errores_lanzados importa ZXING_FALLBACK_URLS)))).
Proof.
  assert (Hsan : ∀ url, url ∈ ZXING_FALLBACK_URLS → sanitizeCdnUrl url = url).
  { intros url Hin. unfold ZXING_FALLBACK_URLS in Hin.
    repeat (apply elem_of_cons in Hin as [->|Hin]; [by vm_compute|]).
    by apply elem_of_nil in Hin. }
  split_and!.
  - by vm_compute.
  - intros m. unfold loadZXing. rewrite loadZXing_desde_inr. split.
    + intros (i & url & Hi & Him & Hprev).
      rewrite Hsan in Him by (by eapply list_elem_of_lookup_2).
      exists i, url. split_and!; [done..|]. intros j url' Hj Hj' m' Hm'.
      apply (Hprev j url' Hj Hj'). exists m'.
      by rewrite Hsan by (by eapply list_elem_of_lookup_2).
    + intros (i & url & Hi & Him & Hprev). exists i, url.
      rewrite Hsan by (by eapply list_elem_of_lookup_2).
      split_and!; [done..|]. intros j url' Hj Hj' [m' Hm'].
      rewrite Hsan in Hm' by (by eapply list_elem_of_lookup_2).
      by apply (Hprev j url' Hj Hj' m').
  - intros Hno. unfold loadZXing. rewrite loadZXing_desde_inl.
    + by destruct (last _).
    + apply Forall_forall. intros url Hin [m Hm].
      apply (Hno url m Hin). by rewrite <- (Hsan url Hin).
Qed.

(** ** The embedded tests *)

(** X20 — the embedded test runner, whatever identifiers [uid()] returns:
    the case of the duplicated locator fails, the case of the clean
    locator passes, and the case of the reducer (course, class, book,
    student, mark) passes. *)
Theorem ejecutarPruebas_resultado (u1 u2 u3 : string) :
  ejecutarPruebas u1 u2 u3 =
    [ ("Sanitiza URL ZXing duplicada", false);
      ("URL correcta permanece igual", true);
      ("MARCAR_LIBRO añade el ISBN a entregados", true) ].
Proof.
  unfold ejecutarPruebas.
  assert (H1 : bool_decide (sanitizeCdnUrl
    "https://cdn.jsdelivr.net/npm/https://cdn.jsdelivr.net/npm/@zxing/browser@0.1.5/esm/index.js/+esm"
    = ZXING_ESM_URL) = false) by (by vm_compute).
  assert (H2 : bool_decide (sanitizeCdnUrl ZXING_ESM_URL = ZXING_ESM_URL) = true)
    by (by vm_compute).
  rewrite H1, H2. simpl. unfold marcar. simpl.
  destruct (decide (u3 ≠ u3)) as [Hne|_]; [by destruct Hne|]. simpl.
  rewrite decide_True by done. simpl.
  reflexivity.
Qed.

(** * Reordering keeps the books; the unmark button *)

Lemma reordena_permutacion direction index libros :
  index < length libros → reordena direction index libros ≡ₚ libros.
Proof.
  intros Hlt. apply Permutation_inj. split.
  - unfold reordena. repeat case_decide; try done;
      by rewrite length_intercambia.
  - destruct (reordena_lookup direction index libros Hlt) as (σ & Hinj & Hσ).
    exists σ. split; [|done]. intros x y. apply Hinj.
Qed.

Lemma reorder_libros_permutacion cursoId isbn0 direction c :
  Curso.libros (reorder_libros cursoId isbn0 direction c) ≡ₚ Curso.libros c.
Proof.
  unfold reorder_libros. case_decide; [done|].
  destruct (findIndex_isbn isbn0 (Curso.libros c)) as [i|] eqn:Hi; [|done].
  simpl. apply reordena_permutacion.
  apply findIndex_isbn_Some in Hi as (l & Hl & _). by eapply lookup_lt_Some.
Qed.

Lemma reordena_sube_y_baja isbn0 libros i :
  NoDup (isbn <$> libros) → findIndex_isbn isbn0 libros = Some i → 0 < i →
  findIndex_isbn isbn0 (reordena "up" i libros) = Some (i - 1) ∧
  reordena "down" (i - 1) (reordena "up" i libros) = libros.
Proof.
  intros Hnd Hi Hpos.
  pose proof Hi as Hi'. apply findIndex_isbn_Some in Hi' as (b & Hb & Hisbn & _).
  assert (Hlt : i < length libros) by (by eapply lookup_lt_Some).
  assert (Hup : reordena "up" i libros = intercambia (i - 1) i libros).
  { unfold reordena. by rewrite decide_True. }
  assert (Hlook : ∀ k, reordena "up" i libros !! k =
            libros !! (if decide (k = i) then i - 1
                       else if decide (k = i - 1) then i else k)).
  { intros k. rewrite Hup. apply intercambia_lookup; lia. }
  split.
  - rewrite <- Hisbn. apply findIndex_isbn_sin_repetir.
    + by apply reordena_sin_repetir.
    + rewrite Hlook. rewrite decide_False by lia. by rewrite decide_True.
  - apply list_eq. intros k. unfold reordena at 1.
    rewrite decide_False by (by intros [? _]).
    rewrite decide_True
      by (split; [done|rewrite Hup, length_intercambia; lia]).
    rewrite intercambia_lookup
      by (rewrite Hup, length_intercambia; lia).
    rewrite Hlook. replace (i - 1 + 1) with i by lia.
    f_equal. repeat case_decide; lia.
Qed.

(** X21 — REORDER_LIBROS never loses, repeats or alters a book: in every
    course the list afterwards is a rearrangement of the list before, and
    the course keeps its position, id and name. In a course without a
    repeated isbn, moving a book up from a position that is not the first
    and then down gives back the course. *)
Theorem reorder_libros_conserva (uid uid' : string) (s : State)
    (cursoId isbn0 direction : string) :
  (∀ k c, cursos s !! k = Some c →
     ∃ c', cursos (reducer uid s (REORDER_LIBROS cursoId isbn0 direction)) !! k
             = Some c' ∧
           Curso.id c' = Curso.id c ∧ Curso.nombre c' = Curso.nombre c ∧
           Curso.libros c' ≡ₚ Curso.libros c) ∧
  (∀ k c i, cursos s !! k = Some c → Curso.id c = cursoId →
     NoDup (isbn <$> Curso.libros c) →
     findIndex_isbn isbn0 (Curso.libros c) = Some i → 0 < i →
     cursos (reducer uid'
               (reducer uid s (REORDER_LIBROS cursoId isbn0 "up"))
               (REORDER_LIBROS cursoId isbn0 "down")) !! k = Some c).
Proof.
  split.
  - intros k c Hk. exists (reorder_libros cursoId isbn0 direction c).
    simpl. rewrite list_lookup_fmap, Hk. split; [done|].
    split_and!.
    + apply reorder_libros_id.
    + unfold reorder_libros. case_decide; [done|].
      by destruct (findIndex_isbn isbn0 (Curso.libros c)).
    + apply reorder_libros_permutacion.
  - intros k c i Hk Hid Hnd Hi Hpos. simpl.
    rewrite !list_lookup_fmap, Hk. simpl. f_equal.
    destruct (reordena_sube_y_baja isbn0 (Curso.libros c) i Hnd Hi Hpos)
      as [Hi' Hvuelve].
    unfold reorder_libros at 2. rewrite decide_False by (intros ?; done).
    rewrite Hi. unfold reorder_libros. simpl.
    rewrite decide_False by (intros ?; done). rewrite Hi'. simpl.
    rewrite Hvuelve. by destruct c.
Qed.

Lemma alumnoSel_desmarcar uid s t b :
  alumnoSel (reducer uid s (DESMARCAR_LIBRO t b))
  = desmarcar t b <$> alumnoSel s.
Proof.
  unfold alumnoSel, alumnosEnClase. simpl.
  rewrite filter_fmap_conserva.
  - apply find_fmap_conserva. intros x.
    by destruct (desmarcar_campos t b x) as (-> & _).
  - intros x. by destruct (desmarcar_campos t b x) as (_ & _ & ->).
Qed.

(** X22 — the unmark button of the checklist: an entry offers it only
    when it is ticked, and its action unmarks the isbn of the entry for
    the resolved student. After the reducer runs that action the resolved
    student and course are the same, every entry of that isbn is unticked
    and offers no button, and the entries of the other isbn are as they
    were. *)
Theorem boton_desmarcar (uid : string) (s : State) (a : Alumno.t)
    (c : Curso.t) (filas0 : list FilaControl) (f : FilaControl)
    (act : Action) :
  alumnoSel s = Some a → cursoDeClase s = Some c →
  ListaControlLibros (alumnoSel s) (cursoDeClase s) = Some filas0 →
  f ∈ filas0 → boton f = Some act →
  entregado f = true ∧
  act = DESMARCAR_LIBRO (Alumno.id a) (isbn (libro f)) ∧
  ∃ a' filas1,
    alumnoSel (reducer uid s act) = Some a' ∧
    cursoDeClase (reducer uid s act) = Some c ∧
    Alumno.id a' = Alumno.id a ∧
    ListaControlLibros (Some a') (Some c) = Some filas1 ∧
    libro <$> filas1 = libro <$> filas0 ∧
    ∀ f1, f1 ∈ filas1 →
      (isbn (libro f1) = isbn (libro f) →
       entregado f1 = false ∧ boton f1 = None) ∧
      (isbn (libro f1) ≠ isbn (libro f) → f1 ∈ filas0).
Proof.
  intros Ha Hc Hlista Hf Hboton. rewrite Ha, Hc in Hlista.
  cbn [ListaControlLibros] in Hlista. injection Hlista as <-.
  apply list_elem_of_fmap in Hf as (l & -> & Hl).
  cbn [libro entregado boton] in *.
  destruct (bool_decide (isbn l ∈ Alumno.librosEntregados a)) eqn:Hen;
    [|discriminate Hboton].
  injection Hboton as <-. split; [done|]. split; [done|].
  set (a' := desmarcar (Alumno.id a) (isbn l) a).
  assert (Hid : Alumno.id a' = Alumno.id a) by apply desmarcar_campos.
  eexists a', _. split_and!.
  - by rewrite alumnoSel_desmarcar, Ha.
  - exact Hc.
  - done.
  - reflexivity.
  - rewrite <- !list_fmap_compose. by apply list_fmap_ext.
  - intros f1 Hf1. apply list_elem_of_fmap in Hf1 as (l1 & -> & Hl1).
    cbn [libro entregado boton]. split.
    + intros Heq. rewrite Heq.
      rewrite bool_decide_eq_false_2; [done|].
      by apply desmarcar_no_entregado.
    + intros Hne. apply list_elem_of_fmap. exists l1. split; [|done].
      rewrite Hid.
      assert (Hmem : isbn l1 ∈ Alumno.librosEntregados a' ↔
                     isbn l1 ∈ Alumno.librosEntregados a).
      { subst a'. unfold desmarcar. rewrite decide_True by done. simpl.
        rewrite list_elem_of_filter. tauto. }
      by rewrite (bool_decide_ext _ _ Hmem).
Qed.

Lemma boton_desmarcar_witness :
  let s := reducer "" estado_dos_alumnos
             (MARCAR_LIBRO "a1" "9780000000001") in
  ∃ a',
    alumnoSel (reducer "" s (DESMARCAR_LIBRO "a1" "9780000000001")) = Some a' ∧
    Alumno.id a' = "a1".
Proof.
  intros s.
  destruct (boton_desmarcar "" s _ _ _
              {| libro := {| isbn := "9780000000001"; title := "Atlas" |};
                 entregado := true;
                 boton := Some (DESMARCAR_LIBRO "a1" "9780000000001") |}
              (DESMARCAR_LIBRO "a1" "9780000000001")
              eq_refl eq_refl eq_refl)
    as (_ & _ & a' & filas1 & Hsel & _ & Hid & _).
  - apply list_elem_of_further, list_elem_of_here.
  - reflexivity.
  - exists a'. split; [exact Hsel|exact Hid].
Defined.
